(** * Portfolio page script ([assets/script.js]): model and properties

    The script is a linear pipeline: fetch one JSON document, validate it,
    turn each of its sections into markup, write the markup into fixed
    containers of the host page, then set up the light/dark theme switch.

    Modelling conventions.
    - A JavaScript string is a Rocq [string]; fixed text of the script
      that is not ASCII appears as its UTF-8 bytes.
    - The browser state the script reads and writes (elements by id, the
      class list of [body], [localStorage], the console, alerts, requested
      navigations, registered listeners) is one record, [World]; code that
      touches it lives in the monad [M], in which an exception leaves the
      effects made before it in place, as in JavaScript.
    - Sections of the data document are records with the fields the script
      reads; a date field is [option string] ([None]: the field is absent).
      A top-level field of the document is a [field]: missing, a falsy JSON
      value, or a section.
    - What the host computes and the script only calls (the locale
      formatting of a [Date]) is a section variable. *)

From Stdlib Require Import String Ascii List Arith Bool Lia.
From stdpp Require Import base strings gmap.

Open Scope string_scope.

(** [simpl] unfolds string concatenation on a constructor. *)
#[local] Arguments String.append !s1 s2 : simpl nomatch.

(* ================================================================= *)
(** ** Strings *)

(** The double quote character, for markup attributes. *)
Definition dq : string := String "034"%char EmptyString.

(** Line feed, as in the [\n] escapes of the script. *)
Definition LF : string := String "010"%char EmptyString.

(** [array.join(sep)] on an array of strings. *)
Definition join (sep : string) (parts : list string) : string :=
  String.concat sep parts.

(** Truthiness of a value that is a string or absent: [!x] is true for
    [undefined], [null] and the empty string. *)
Definition truthy (x : option string) : bool :=
  match x with
  | Some s => negb (String.eqb s "")
  | None => false
  end.

(** The string a value that is a string or absent becomes where a string
    is expected (template interpolation, the argument of [Date]).  The
    script reaches this only for truthy values; [null] behaves as an
    absent field everywhere else. *)
Definition toStr (x : option string) : string :=
  match x with
  | Some s => s
  | None => "undefined"
  end.

(** [needle] occurs in [hay]. *)
Definition occurs_in (needle hay : string) : Prop :=
  exists before after, hay = before ++ needle ++ after.

(* ================================================================= *)
(** ** The data document *)

Module Social.
Record t := make { name : string; url : string; icon : string }.
End Social.

Module Personal.
Record t := make {
  name : string;
  title : string;
  photo : string;
  about : string;
  email : string;
  social : list Social.t
}.
End Personal.

Module SkillCategory.
Record t := make { category : string; items : list string }.
End SkillCategory.

Module Experience.
Record t := make {
  title : string;
  company : string;
  location : string;
  startDate : option string;
  endDate : option string;
  description : string;
  tags : list string
}.
End Experience.

Module Certification.
Record t := make {
  name : string;
  issuer : string;
  date : option string;
  url : string
}.
End Certification.

Module Event.
Record t := make {
  title : string;
  type : string;
  location : string;
  date : option string;
  url : string
}.
End Event.

Module AcademicEntry.
Record t := make {
  degree : string;
  institution : string;
  startDate : option string;
  endDate : option string
}.
End AcademicEntry.

(** The falsy values a JSON document can hold. *)
Inductive falsy := JNull | JFalse | JZero | JEmptyString.

(** A top-level field of the document: not there, there with a falsy
    value, or there with a section ([Present []] is the empty array,
    which is truthy). *)
Inductive field (T : Type) :=
  | Missing
  | Falsy (v : falsy)
  | Present (x : T).
Arguments Missing {T}.
Arguments Falsy {T} v.
Arguments Present {T} x.

Definition field_truthy {T} (f : field T) : bool :=
  match f with
  | Present _ => true
  | _ => false
  end.

Record Document := {
  personal : field Personal.t;
  skills : field (list SkillCategory.t);
  experience : field (list Experience.t);
  certifications : field (list Certification.t);
  events : field (list Event.t);
  academic : field (list AcademicEntry.t)
}.

(** A parsed JSON text: [null], an object, or anything else (a boolean,
    number, string or array, none of which has a property the script
    reads; [truthy] is its truthiness). *)
Inductive json :=
  | JsonNull
  | JsonOther (truthy : bool)
  | JsonObject (data : Document).

(** What [fetch(DATA_PATH)] delivers: a rejected promise, or a response
    whose body parses as JSON ([Some]) or does not ([None]). *)
Inductive fetch_outcome :=
  | FetchRejected
  | Response (ok : bool) (statusText : string) (body : option json).

(* ================================================================= *)
(** ** The browser state *)

(** An element of the page, found by its id.  [value] is the current
    value of a form control; its default is the [value] attribute.
    [inBody] says whether the element is a descendant of [body]. *)
Record element := Element {
  innerHTML : string;
  value : string;
  attributes : gmap string string;
  inBody : bool
}.

Inductive exn :=
  | TypeError
  | SyntaxError
  | NetworkError
  | Error (message : string).

Inductive log_entry :=
  | ConsoleError (message : string) (error : exn)
  | ConsoleWarn (message : string).

(** The two closures the script registers as listeners. *)
Inductive listener :=
  | ContactSubmit (form : option string) (personalData : field Personal.t)
  | ThemeSwitchClick (themeSwitch : option string).

Record World := {
  location_href : string;
  prefersDark : bool;
  localStorage : gmap string string;
  document : gmap string element;
  bodyInnerHTML : option string;
  bodyClassList : gset string;
  listeners : list (string * string * listener);
  defaultPrevented : bool;
  console : list log_entry;
  alerts : list string;
  navigations : list string
}.

Definition set_localStorage (f : gmap string string -> gmap string string)
    (w : World) : World :=
  {| location_href := location_href w; prefersDark := prefersDark w;
     localStorage := f (localStorage w); document := document w;
     bodyInnerHTML := bodyInnerHTML w; bodyClassList := bodyClassList w;
     listeners := listeners w; defaultPrevented := defaultPrevented w;
     console := console w; alerts := alerts w;
     navigations := navigations w |}.

Definition set_document (f : gmap string element -> gmap string element)
    (w : World) : World :=
  {| location_href := location_href w; prefersDark := prefersDark w;
     localStorage := localStorage w; document := f (document w);
     bodyInnerHTML := bodyInnerHTML w; bodyClassList := bodyClassList w;
     listeners := listeners w; defaultPrevented := defaultPrevented w;
     console := console w; alerts := alerts w;
     navigations := navigations w |}.

Definition set_bodyInnerHTML (html : string) (w : World) : World :=
  {| location_href := location_href w; prefersDark := prefersDark w;
     localStorage := localStorage w; document := document w;
     bodyInnerHTML := Some html; bodyClassList := bodyClassList w;
     listeners := listeners w; defaultPrevented := defaultPrevented w;
     console := console w; alerts := alerts w;
     navigations := navigations w |}.

Definition set_bodyClassList (f : gset string -> gset string)
    (w : World) : World :=
  {| location_href := location_href w; prefersDark := prefersDark w;
     localStorage := localStorage w; document := document w;
     bodyInnerHTML := bodyInnerHTML w; bodyClassList := f (bodyClassList w);
     listeners := listeners w; defaultPrevented := defaultPrevented w;
     console := console w; alerts := alerts w;
     navigations := navigations w |}.

Definition set_listeners
    (f : list (string * string * listener) -> list (string * string * listener))
    (w : World) : World :=
  {| location_href := location_href w; prefersDark := prefersDark w;
     localStorage := localStorage w; document := document w;
     bodyInnerHTML := bodyInnerHTML w; bodyClassList := bodyClassList w;
     listeners := f (listeners w); defaultPrevented := defaultPrevented w;
     console := console w; alerts := alerts w;
     navigations := navigations w |}.

Definition set_defaultPrevented (b : bool) (w : World) : World :=
  {| location_href := location_href w; prefersDark := prefersDark w;
     localStorage := localStorage w; document := document w;
     bodyInnerHTML := bodyInnerHTML w; bodyClassList := bodyClassList w;
     listeners := listeners w; defaultPrevented := b;
     console := console w; alerts := alerts w;
     navigations := navigations w |}.

Definition set_console (f : list log_entry -> list log_entry)
    (w : World) : World :=
  {| location_href := location_href w; prefersDark := prefersDark w;
     localStorage := localStorage w; document := document w;
     bodyInnerHTML := bodyInnerHTML w; bodyClassList := bodyClassList w;
     listeners := listeners w; defaultPrevented := defaultPrevented w;
     console := f (console w); alerts := alerts w;
     navigations := navigations w |}.

Definition set_alerts (f : list string -> list string) (w : World) : World :=
  {| location_href := location_href w; prefersDark := prefersDark w;
     localStorage := localStorage w; document := document w;
     bodyInnerHTML := bodyInnerHTML w; bodyClassList := bodyClassList w;
     listeners := listeners w; defaultPrevented := defaultPrevented w;
     console := console w; alerts := f (alerts w);
     navigations := navigations w |}.

Definition set_navigations (f : list string -> list string)
    (w : World) : World :=
  {| location_href := location_href w; prefersDark := prefersDark w;
     localStorage := localStorage w; document := document w;
     bodyInnerHTML := bodyInnerHTML w; bodyClassList := bodyClassList w;
     listeners := listeners w; defaultPrevented := defaultPrevented w;
     console := console w; alerts := alerts w;
     navigations := f (navigations w) |}.

(* ================================================================= *)
(** ** Computations: state that survives exceptions *)

Inductive completion (A : Type) :=
  | Normal (a : A)
  | Throw (e : exn).
Arguments Normal {A} a.
Arguments Throw {A} e.

Definition M (A : Type) : Type := World -> completion A * World.

Definition ret {A} (a : A) : M A := fun w => (Normal a, w).

Definition throw {A} (e : exn) : M A := fun w => (Throw e, w).

Definition bind {A B} (m : M A) (k : A -> M B) : M B :=
  fun w =>
    match m w with
    | (Normal a, w') => k a w'
    | (Throw e, w') => (Throw e, w')
    end.

(** [try { m } catch (error) { h error }] *)
Definition try_catch {A} (m : M A) (h : exn -> M A) : M A :=
  fun w =>
    match m w with
    | (Normal a, w') => (Normal a, w')
    | (Throw e, w') => h e w'
    end.

Definition gets {A} (f : World -> A) : M A := fun w => (Normal (f w), w).

Definition modify (f : World -> World) : M unit := fun w => (Normal tt, f w).

Definition lift {A} (c : completion A) : M A := fun w => (c, w).

Declare Scope js_scope.
Delimit Scope js_scope with js.
Notation "x <- c1 ;; c2" := (bind c1 (fun x => c2))
  (at level 100, c1 at next level, right associativity) : js_scope.
Notation "c1 ;; c2" := (bind c1 (fun _ => c2))
  (at level 100, right associativity) : js_scope.
Open Scope js_scope.

(** The world a computation leaves, and its completion. *)
Definition exec {A} (m : M A) (w : World) : World := snd (m w).
Definition eval {A} (m : M A) (w : World) : completion A := fst (m w).

(* ================================================================= *)
(** ** Host functions on strings *)

Definition hexDigit (upper : bool) (n : nat) : ascii :=
  match n with
  | 0 => "0" | 1 => "1" | 2 => "2" | 3 => "3" | 4 => "4"
  | 5 => "5" | 6 => "6" | 7 => "7" | 8 => "8" | 9 => "9"
  | 10 => if upper then "A" else "a"
  | 11 => if upper then "B" else "b"
  | 12 => if upper then "C" else "c"
  | 13 => if upper then "D" else "d"
  | 14 => if upper then "E" else "e"
  | _ => if upper then "F" else "f"
  end%char.

Definition between (lo hi : ascii) (c : ascii) : bool :=
  (nat_of_ascii lo <=? nat_of_ascii c)%nat
  && (nat_of_ascii c <=? nat_of_ascii hi)%nat.

Fixpoint mem_ascii (c : ascii) (s : string) : bool :=
  match s with
  | EmptyString => false
  | String c' s' => Ascii.eqb c c' || mem_ascii c s'
  end.

(** The characters [encodeURIComponent] leaves as they are. *)
Definition uriUnreserved (c : ascii) : bool :=
  between "A" "Z" c || between "a" "z" c || between "0" "9" c
  || mem_ascii c "-_.!~*'()".

Definition encodeURIByte (c : ascii) : string :=
  if uriUnreserved c then String c EmptyString
  else
    String "%" (String (hexDigit true (nat_of_ascii c / 16))
               (String (hexDigit true (nat_of_ascii c mod 16)) EmptyString)).

(** [encodeURIComponent]: every byte of the UTF-8 form of the text that is
    not unreserved becomes [%XX]. *)
Fixpoint encodeURIComponent (s : string) : string :=
  match s with
  | EmptyString => EmptyString
  | String c s' => encodeURIByte c ++ encodeURIComponent s'
  end.

(** [c.toUpperCase()], on ASCII letters; other bytes are kept. *)
Definition toUpperCase_ascii (c : ascii) : ascii :=
  if between "a" "z" c then ascii_of_nat (nat_of_ascii c - 32) else c.

Fixpoint toUpperCase (s : string) : string :=
  match s with
  | EmptyString => EmptyString
  | String c s' => String (toUpperCase_ascii c) (toUpperCase s')
  end.

(** [s.charAt(0)] *)
Definition charAt0 (s : string) : string := substring 0 1 s.

(** How [JSON.stringify] writes one character of a string. *)
Definition jsonEscape (c : ascii) : string :=
  let n := nat_of_ascii c in
  if Ascii.eqb c "034" then "\" ++ dq
  else if Ascii.eqb c "\" then "\\"
  else if Ascii.eqb c "008" then "\b"
  else if Ascii.eqb c "009" then "\t"
  else if Ascii.eqb c "010" then "\n"
  else if Ascii.eqb c "012" then "\f"
  else if Ascii.eqb c "013" then "\r"
  else if (n <? 32)%nat then
    "\u00" ++ String (hexDigit false (n / 16))
                (String (hexDigit false (n mod 16)) EmptyString)
  else String c EmptyString.

Fixpoint jsonEscapeAll (s : string) : string :=
  match s with
  | EmptyString => EmptyString
  | String c s' => jsonEscape c ++ jsonEscapeAll s'
  end.

Definition jsonString (s : string) : string := dq ++ jsonEscapeAll s ++ dq.

Definition jsonArray (parts : list string) : string :=
  "[" ++ join "," parts ++ "]".

(* ================================================================= *)
(** ** DOM and storage operations *)

(** A reference to an element: its id, or [None] for [null]. *)
Definition ref := option string.

Definition getElementById (id : string) : M ref :=
  w <- gets document ;;
  ret (match w !! id with Some _ => Some id | None => None end).

(** Run [f] on the element behind a reference; a [null] reference throws. *)
Definition onElement (r : ref) (f : element -> element) : M unit :=
  match r with
  | Some id => modify (set_document (alter f id))
  | None => throw TypeError
  end.

Definition with_innerHTML (html : string) (el : element) : element :=
  {| innerHTML := html; value := value el; attributes := attributes el;
     inBody := inBody el |}.

Definition with_value (v : string) (el : element) : element :=
  {| innerHTML := innerHTML el; value := v; attributes := attributes el;
     inBody := inBody el |}.

Definition with_attribute (name v : string) (el : element) : element :=
  {| innerHTML := innerHTML el; value := value el;
     attributes := <[name := v]> (attributes el); inBody := inBody el |}.

(** [r.innerHTML = html], also [r.textContent = text] on the script
    element, whose content is raw text. *)
Definition setInnerHTML (r : ref) (html : string) : M unit :=
  onElement r (with_innerHTML html).

(** [r.innerHTML] read back. *)
Definition getInnerHTML (r : ref) : M string :=
  match r with
  | Some id =>
      d <- gets document ;;
      ret (match d !! id with Some el => innerHTML el | None => "" end)
  | None => throw TypeError
  end.

(** [r.value] *)
Definition getValue (r : ref) : M string :=
  match r with
  | Some id =>
      d <- gets document ;;
      ret (match d !! id with Some el => value el | None => "" end)
  | None => throw TypeError
  end.

Definition setAttribute (r : ref) (name v : string) : M unit :=
  onElement r (with_attribute name v).

(** [r.title = v]: the property reflects the attribute. *)
Definition setTitle (r : ref) (v : string) : M unit :=
  setAttribute r "title" v.

Definition addEventListener (r : ref) (type : string) (l : listener) : M unit :=
  match r with
  | Some id => modify (set_listeners (fun ls => (ls ++ [(id, type, l)])%list))
  | None => throw TypeError
  end.

(** [document.body.innerHTML = html]: the old descendants of [body] are
    gone, and [html] (the error paragraph) brings no element with an id. *)
Definition setBodyInnerHTML (html : string) : M unit :=
  modify (fun w =>
    set_bodyInnerHTML html
      (set_document (filter (fun kv => inBody (snd kv) = false)) w)).

Definition classList_add (c : string) : M unit :=
  modify (set_bodyClassList (fun cl => cl ∪ {[c]})).

Definition classList_remove (c : string) : M unit :=
  modify (set_bodyClassList (fun cl => cl ∖ {[c]})).

Definition classList_contains (c : string) : M bool :=
  cl <- gets bodyClassList ;;
  ret (bool_decide (c ∈ cl)).

Definition localStorage_getItem (key : string) : M (option string) :=
  st <- gets localStorage ;;
  ret (st !! key).

Definition localStorage_setItem (key v : string) : M unit :=
  modify (set_localStorage <[key := v]>).

Definition console_error (message : string) (error : exn) : M unit :=
  modify (set_console (fun l => (l ++ [ConsoleError message error])%list)).

Definition console_warn (message : string) : M unit :=
  modify (set_console (fun l => (l ++ [ConsoleWarn message])%list)).

Definition alert (message : string) : M unit :=
  modify (set_alerts (fun l => (l ++ [message])%list)).

(** [window.location.href = url]: a navigation is requested.  For a
    [mailto:] address the mail program opens and the page stays. *)
Definition navigate (url : string) : M unit :=
  modify (set_navigations (fun l => (l ++ [url])%list)).

(** [e.preventDefault()] *)
Definition preventDefault : M unit := modify (set_defaultPrevented true).

(* ================================================================= *)
(** ** Reading the document *)

(** [data.f] for a top-level field [f] of the parsed document. *)
Definition member {T} (data : json) (f : Document -> field T) : M (field T) :=
  match data with
  | JsonNull => throw TypeError
  | JsonOther _ => ret Missing
  | JsonObject d => ret (f d)
  end.

(** [data.f] inside a template, for a string field [f] of a section: the
    field of the section; ["undefined"] on a falsy value that is not
    [null]; a TypeError on [undefined] and [null]. *)
Definition prop {T} (data : field T) (f : T -> string) : M string :=
  match data with
  | Present x => ret (f x)
  | Missing | Falsy JNull => throw TypeError
  | Falsy _ => ret "undefined"
  end.

(** [data.f.map(...)] for a list field [f] of a section: only a section
    has the list. *)
Definition propArray {T A} (data : field T) (f : T -> list A) : M (list A) :=
  match data with
  | Present x => ret (f x)
  | _ => throw TypeError
  end.

(** [xs.map(...)] for a top-level list: only an array has [map]. *)
Definition asArray {A} (xs : field (list A)) : M (list A) :=
  match xs with
  | Present l => ret l
  | _ => throw TypeError
  end.

(* ================================================================= *)
(** ** The script *)

(** The object [generateJsonLd] returns. *)
Record JsonLd := {
  ld_context : string;
  ld_type : string;
  ld_name : string;
  ld_jobTitle : string;
  ld_url : string;
  ld_email : string;
  ld_image : string;
  ld_sameAs : list string
}.

(** [JSON.stringify] of that object. *)
Definition JSON_stringify (o : JsonLd) : string :=
  "{" ++ jsonString "@context" ++ ":" ++ jsonString (ld_context o)
  ++ "," ++ jsonString "@type" ++ ":" ++ jsonString (ld_type o)
  ++ "," ++ jsonString "name" ++ ":" ++ jsonString (ld_name o)
  ++ "," ++ jsonString "jobTitle" ++ ":" ++ jsonString (ld_jobTitle o)
  ++ "," ++ jsonString "url" ++ ":" ++ jsonString (ld_url o)
  ++ "," ++ jsonString "email" ++ ":" ++ jsonString (ld_email o)
  ++ "," ++ jsonString "image" ++ ":" ++ jsonString (ld_image o)
  ++ "," ++ jsonString "sameAs" ++ ":"
  ++ jsonArray (map jsonString (ld_sameAs o))
  ++ "}".

(** The controls the form markup creates, with their attributes. *)
Definition contactFormControls : list (string * list (string * string)) :=
  [ ("name", [("type", "text"); ("id", "name"); ("name", "name");
              ("required", ""); ("aria-required", "true")]);
    ("email", [("type", "email"); ("id", "email"); ("name", "email");
               ("required", ""); ("aria-required", "true")]);
    ("subject", [("type", "text"); ("id", "subject"); ("name", "subject");
                 ("required", ""); ("aria-required", "true");
                 ("value", "Consulta de Portfolio")]);
    ("message", [("id", "message"); ("name", "message");
                 ("required", ""); ("aria-required", "true")]);
    ("fax", [("type", "text"); ("id", "fax"); ("name", "fax");
             ("tabindex", "-1"); ("autocomplete", "off")]) ].

(** The value a control starts with and is reset to. *)
Definition defaultValue (el : element) : string :=
  default "" (attributes el !! "value").

Definition newControl (attrs : list (string * string)) (body : bool) : element :=
  let attributes := list_to_map attrs in
  {| innerHTML := ""; value := default "" (attributes !! "value");
     attributes := attributes; inBody := body |}.

(** The part of [form.innerHTML = markup] that builds the controls. *)
Definition createControls (form : ref)
    (controls : list (string * list (string * string))) : M unit :=
  match form with
  | Some id =>
      modify (fun w =>
        let body :=
          match document w !! id with Some el => inBody el | None => false end in
        set_document
          (fun d => foldr (fun c d' => <[fst c := newControl (snd c) body]> d')
                      d controls) w)
  | None => throw TypeError
  end.

(** [form.reset()] *)
Definition reset (form : ref) : M unit :=
  match form with
  | Some _ =>
      modify (set_document
        (fun d => foldr (fun c d' =>
                           alter (fun el => with_value (defaultValue el) el)
                             (fst c) d')
                    d contactFormControls))
  | None => throw TypeError
  end.

Definition DATA_PATH : string := "data.json".

Section Script.

(** [new Date(s).toLocaleDateString('es-ES', {year:'numeric', month:'long'})],
    computed by the host. *)
Variable toLocaleDateString : string -> string.

(** *** utils *)

Definition formatDate (dateString : option string) : string :=
  if negb (truthy dateString) then "Actualidad"
  else toLocaleDateString (toStr dateString).

Definition createTimeTag (dateString : option string) : string :=
  if negb (truthy dateString) then ""
  else
    let formattedDate := formatDate dateString in
    "<time datetime=" ++ dq ++ toStr dateString ++ dq ++ ">"
      ++ formattedDate ++ "</time>".

Definition safeTruncate (text : string) (maxLength : nat) : string :=
  if (String.length text <=? maxLength)%nat then text
  else substring 0 maxLength text ++ "...".

Definition generateJsonLd (personalData : field Personal.t) : M JsonLd :=
  social <- propArray personalData Personal.social ;;
  let sameAsUrls := map Social.url social in
  name <- prop personalData Personal.name ;;
  title <- prop personalData Personal.title ;;
  href <- gets location_href ;;
  email <- prop personalData Personal.email ;;
  photo <- prop personalData Personal.photo ;;
  ret {| ld_context := "https://schema.org";
         ld_type := "Person";
         ld_name := name;
         ld_jobTitle := title;
         ld_url := href;
         ld_email := email;
         ld_image := photo;
         ld_sameAs := sameAsUrls |}.

(** *** dataLoader *)

Definition validateData (data : json) : M unit :=
  let incomplete :=
    Error "Estructura de data.json incompleta. Faltan secciones clave (personal, skills, experience)." in
  p <- member data personal ;;
  if negb (field_truthy p) then throw incomplete else
  s <- member data skills ;;
  if negb (field_truthy s) then throw incomplete else
  e <- member data experience ;;
  if negb (field_truthy e) then throw incomplete else
  ret tt.

Definition errorMarkup : string :=
  "<p style=" ++ dq ++ "text-align: center; padding: 50px;" ++ dq ++ ">Error al cargar el portfolio. Por favor, revisa el archivo data.json.</p>".

Definition loadData (response : fetch_outcome) : M (option json) :=
  try_catch
    (match response with
     | FetchRejected => throw NetworkError
     | Response ok statusText body =>
         if negb ok then
           throw (Error ("Error al cargar " ++ DATA_PATH ++ ": " ++ statusText))
         else
           match body with
           | None => throw SyntaxError
           | Some data =>
               validateData data ;;
               ret (Some data)
           end
     end)
    (fun error =>
       console_error "Fallo en la carga o validación de datos:" error ;;
       setBodyInnerHTML errorMarkup ;;
       ret None).

(** *** renderer *)

Definition renderTag (text : string) : string :=
  "<span class=" ++ dq ++ "tag" ++ dq ++ ">" ++ text ++ "</span>".

Definition headerMarkup (photo name title : string) : string :=
  "
            <img src=" ++ dq ++ photo ++ dq ++ " alt=" ++ dq ++ "Foto de perfil de " ++ name ++ dq ++ " class=" ++ dq ++ "profile__photo" ++ dq ++ " loading=" ++ dq ++ "lazy" ++ dq ++ ">
            <h1 class=" ++ dq ++ "profile__name" ++ dq ++ ">" ++ name ++ "</h1>
            <p class=" ++ dq ++ "profile__title" ++ dq ++ ">" ++ title ++ "</p>
        ".

Definition socialLink (s : Social.t) : string :=
  "
            <a href=" ++ dq ++ Social.url s ++ dq ++ " target=" ++ dq ++ "_blank" ++ dq ++ " rel=" ++ dq ++ "noopener noreferrer" ++ dq ++ " class=" ++ dq ++ "social-link" ++ dq ++ " aria-label=" ++ dq ++ Social.name s ++ dq ++ ">
                <!-- Icono simulado. En un proyecto real se usaría SVG o una librería de iconos -->
                <span aria-hidden=" ++ dq ++ "true" ++ dq ++ ">" ++ toUpperCase (charAt0 (Social.icon s)) ++ "</span> " ++ Social.name s ++ "
            </a>
        ".

Definition emailLink (email name : string) : string :=
  "
            <a href=" ++ dq ++ "mailto:" ++ email ++ dq ++ " class=" ++ dq ++ "social-link" ++ dq ++ " aria-label=" ++ dq ++ "Enviar correo electrónico a " ++ name ++ dq ++ ">
                <span aria-hidden=" ++ dq ++ "true" ++ dq ++ ">✉️</span> Email
            </a>
        ".

Definition renderPersonal (data : field Personal.t) : M unit :=
  header <- getElementById "main-header" ;;
  photo <- prop data Personal.photo ;;
  name <- prop data Personal.name ;;
  title <- prop data Personal.title ;;
  setInnerHTML header (headerMarkup photo name title) ;;
  aboutContent <- getElementById "about-content" ;;
  about <- prop data Personal.about ;;
  setInnerHTML aboutContent ("<p>" ++ about ++ "</p>") ;;
  contactInfo <- getElementById "contact-info" ;;
  social <- propArray data Personal.social ;;
  setInnerHTML contactInfo (join "" (map socialLink social)) ;;
  links <- getInnerHTML contactInfo ;;
  email <- prop data Personal.email ;;
  name <- prop data Personal.name ;;
  setInnerHTML contactInfo (links ++ emailLink email name) ;;
  jsonLdScript <- getElementById "json-ld-data" ;;
  jsonLd <- generateJsonLd data ;;
  setInnerHTML jsonLdScript (JSON_stringify jsonLd).

Definition skillCard (category : SkillCategory.t) : string :=
  "
            <div class=" ++ dq ++ "card skills__category" ++ dq ++ " role=" ++ dq ++ "group" ++ dq ++ " aria-labelledby=" ++ dq ++ "skill-cat-" ++ SkillCategory.category category ++ dq ++ ">
                <h3 id=" ++ dq ++ "skill-cat-" ++ SkillCategory.category category ++ dq ++ " class=" ++ dq ++ "card__title" ++ dq ++ ">" ++ SkillCategory.category category ++ "</h3>
                <div class=" ++ dq ++ "skills__category-list" ++ dq ++ ">
                    " ++ join "" (map renderTag (SkillCategory.items category)) ++ "
                </div>
            </div>
        ".

Definition renderSkills (skills : field (list SkillCategory.t)) : M unit :=
  skillsContent <- getElementById "skills-content" ;;
  categories <- asArray skills ;;
  setInnerHTML skillsContent (join "" (map skillCard categories)).

Definition timelineItem (index : nat) (job : Experience.t) : string :=
  let sideClass :=
    if (index mod 2 =? 0)%nat then "" else "timeline__item--right" in
  let startDate := createTimeTag (Experience.startDate job) in
  let endDate :=
    if truthy (Experience.endDate job)
    then createTimeTag (Experience.endDate job)
    else "Actualidad" in
  "
                <div class=" ++ dq ++ "timeline__item " ++ sideClass ++ dq ++ " role=" ++ dq ++ "listitem" ++ dq ++ ">
                    <div class=" ++ dq ++ "timeline__content card" ++ dq ++ ">
                        <h3 class=" ++ dq ++ "card__title" ++ dq ++ ">" ++ Experience.title job ++ "</h3>
                        <p class=" ++ dq ++ "card__subtitle" ++ dq ++ ">" ++ Experience.company job ++ " - " ++ Experience.location job ++ "</p>
                        <p class=" ++ dq ++ "timeline__date" ++ dq ++ ">" ++ startDate ++ " - " ++ endDate ++ "</p>
                        <p>" ++ Experience.description job ++ "</p>
                        <div class=" ++ dq ++ "tags-container" ++ dq ++ " aria-label=" ++ dq ++ "Tecnologías utiliBzadas" ++ dq ++ ">
                            " ++ join "" (map renderTag (Experience.tags job)) ++ "
                        </div>
                    </div>
                </div>
            ".

Definition renderExperience (experience : field (list Experience.t)) : M unit :=
  timeline <- getElementById "experience-timeline" ;;
  jobs <- asArray experience ;;
  setInnerHTML timeline (join "" (imap timelineItem jobs)).

Definition certificationCard (cert : Certification.t) : string :=
  "
            <a href=" ++ dq ++ Certification.url cert ++ dq ++ " target=" ++ dq ++ "_blank" ++ dq ++ " rel=" ++ dq ++ "noopener noreferrer" ++ dq ++ " class=" ++ dq ++ "card" ++ dq ++ " role=" ++ dq ++ "listitem" ++ dq ++ ">
                <h3 class=" ++ dq ++ "card__title" ++ dq ++ ">" ++ Certification.name cert ++ "</h3>
                <p class=" ++ dq ++ "card__subtitle" ++ dq ++ ">" ++ Certification.issuer cert ++ "</p>
                <p class=" ++ dq ++ "timeline__date" ++ dq ++ ">" ++ createTimeTag (Certification.date cert) ++ "</p>
            </a>
        ".

Definition renderCertifications
    (certifications : field (list Certification.t)) : M unit :=
  cards <- getElementById "certifications-cards" ;;
  certs <- asArray certifications ;;
  setInnerHTML cards (join "" (map certificationCard certs)).

Definition eventItem (event : Event.t) : string :=
  "
            <div class=" ++ dq ++ "list-item" ++ dq ++ " role=" ++ dq ++ "listitem" ++ dq ++ ">
                <div class=" ++ dq ++ "list-item__header" ++ dq ++ ">
                    <h4 class=" ++ dq ++ "list-item__title" ++ dq ++ ">
                        <a href=" ++ dq ++ Event.url event ++ dq ++ " target=" ++ dq ++ "_blank" ++ dq ++ " rel=" ++ dq ++ "noopener noreferrer" ++ dq ++ ">" ++ Event.title event ++ "</a>
                    </h4>
                    <p class=" ++ dq ++ "list-item__date" ++ dq ++ ">" ++ createTimeTag (Event.date event) ++ "</p>
                </div>
                <p class=" ++ dq ++ "list-item__subtitle" ++ dq ++ ">" ++ Event.type event ++ " en " ++ Event.location event ++ "</p>
            </div>
        ".

Definition renderEvents (events : field (list Event.t)) : M unit :=
  list <- getElementById "events-list" ;;
  evs <- asArray events ;;
  setInnerHTML list (join "" (map eventItem evs)).

Definition academicItem (item : AcademicEntry.t) : string :=
  let startDate := createTimeTag (AcademicEntry.startDate item) in
  let endDate := createTimeTag (AcademicEntry.endDate item) in
  "
                <div class=" ++ dq ++ "list-item" ++ dq ++ " role=" ++ dq ++ "listitem" ++ dq ++ ">
                    <div class=" ++ dq ++ "list-item__header" ++ dq ++ ">
                        <h4 class=" ++ dq ++ "list-item__title" ++ dq ++ ">" ++ AcademicEntry.degree item ++ "</h4>
                        <p class=" ++ dq ++ "list-item__date" ++ dq ++ ">" ++ startDate ++ " - " ++ endDate ++ "</p>
                    </div>
                    <p class=" ++ dq ++ "list-item__subtitle" ++ dq ++ ">" ++ AcademicEntry.institution item ++ "</p>
                </div>
            ".

Definition renderAcademic (academic : field (list AcademicEntry.t)) : M unit :=
  list <- getElementById "academic-list" ;;
  entries <- asArray academic ;;
  setInnerHTML list (join "" (map academicItem entries)).

Definition contactFormMarkup : string :=
  "
            <div class=" ++ dq ++ "form-group" ++ dq ++ ">
                <label for=" ++ dq ++ "name" ++ dq ++ ">Tu Nombre:</label>
                <input type=" ++ dq ++ "text" ++ dq ++ " id=" ++ dq ++ "name" ++ dq ++ " name=" ++ dq ++ "name" ++ dq ++ " required aria-required=" ++ dq ++ "true" ++ dq ++ ">
            </div>
            <div class=" ++ dq ++ "form-group" ++ dq ++ ">
                <label for=" ++ dq ++ "email" ++ dq ++ ">Tu Email:</label>
                <input type=" ++ dq ++ "email" ++ dq ++ " id=" ++ dq ++ "email" ++ dq ++ " name=" ++ dq ++ "email" ++ dq ++ " required aria-required=" ++ dq ++ "true" ++ dq ++ ">
            </div>
            <div class=" ++ dq ++ "form-group" ++ dq ++ ">
                <label for=" ++ dq ++ "subject" ++ dq ++ ">Asunto:</label>
                <input type=" ++ dq ++ "text" ++ dq ++ " id=" ++ dq ++ "subject" ++ dq ++ " name=" ++ dq ++ "subject" ++ dq ++ " required aria-required=" ++ dq ++ "true" ++ dq ++ " value=" ++ dq ++ "Consulta de Portfolio" ++ dq ++ ">
            </div>
            <div class=" ++ dq ++ "form-group" ++ dq ++ ">
                <label for=" ++ dq ++ "message" ++ dq ++ ">Mensaje:</label>
                <textarea id=" ++ dq ++ "message" ++ dq ++ " name=" ++ dq ++ "message" ++ dq ++ " required aria-required=" ++ dq ++ "true" ++ dq ++ "></textarea>
            </div>
            <!-- Honeypot: Campo oculto para bots -->
            <div class=" ++ dq ++ "honeypot" ++ dq ++ ">
                <label for=" ++ dq ++ "fax" ++ dq ++ ">No rellenar:</label>
                <input type=" ++ dq ++ "text" ++ dq ++ " id=" ++ dq ++ "fax" ++ dq ++ " name=" ++ dq ++ "fax" ++ dq ++ " tabindex=" ++ dq ++ "-1" ++ dq ++ " autocomplete=" ++ dq ++ "off" ++ dq ++ ">
            </div>
            <button type=" ++ dq ++ "submit" ++ dq ++ " class=" ++ dq ++ "button" ++ dq ++ ">Enviar Mensaje (Simulado)</button>
        ".

Definition mailBody (ownerName name email message : string) : string :=
  "Hola " ++ ownerName ++ "," ++ LF ++ LF ++ "Mi nombre es " ++ name
  ++ " (" ++ email ++ ")." ++ LF ++ LF ++ message ++ LF ++ LF ++ "Saludos.".

(** The submit listener of the contact form. *)
Definition onContactSubmit (form : ref) (personalData : field Personal.t)
    : M unit :=
  preventDefault ;;
  honeypotField <- getElementById "fax" ;;
  honeypot <- getValue honeypotField ;;
  if truthy (Some honeypot) then
    console_warn "Intento de spam detectado (honeypot)." ;;
    alert "Mensaje enviado (simulación). Gracias por tu interés." ;;
    reset form
  else
    nameField <- getElementById "name" ;;
    name <- getValue nameField ;;
    emailField <- getElementById "email" ;;
    email <- getValue emailField ;;
    subjectField <- getElementById "subject" ;;
    subject <- getValue subjectField ;;
    messageField <- getElementById "message" ;;
    message <- getValue messageField ;;
    let mailtoSubject := encodeURIComponent ("[Portfolio] " ++ subject) in
    ownerName <- prop personalData Personal.name ;;
    let mailtoBody :=
      encodeURIComponent (mailBody ownerName name email message) in
    ownerEmail <- prop personalData Personal.email ;;
    let mailtoLink :=
      "mailto:" ++ ownerEmail ++ "?subject=" ++ mailtoSubject
      ++ "&body=" ++ mailtoBody in
    navigate mailtoLink ;;
    reset form.

Definition renderContactForm (personalData : field Personal.t) : M unit :=
  form <- getElementById "contact-form" ;;
  setInnerHTML form contactFormMarkup ;;
  createControls form contactFormControls ;;
  addEventListener form "submit" (ContactSubmit form personalData).

Definition renderAll (data : json) : M unit :=
  p <- member data personal ;;
  renderPersonal p ;;
  s <- member data skills ;;
  renderSkills s ;;
  e <- member data experience ;;
  renderExperience e ;;
  c <- member data certifications ;;
  renderCertifications c ;;
  ev <- member data events ;;
  renderEvents ev ;;
  a <- member data academic ;;
  renderAcademic a ;;
  p' <- member data personal ;;
  renderContactForm p'.

(** *** main *)

(** [if (data)] on what [loadData] returned. *)
Definition json_truthy (data : option json) : bool :=
  match data with
  | None | Some JsonNull => false
  | Some (JsonOther t) => t
  | Some (JsonObject _) => true
  end.

Definition applyTheme (themeSwitch : ref) (theme : string) : M unit :=
  (if String.eqb theme "dark" then
     classList_add "dark-mode" ;;
     setAttribute themeSwitch "aria-checked" "true" ;;
     setTitle themeSwitch "Cambiar a tema claro"
   else
     classList_remove "dark-mode" ;;
     setAttribute themeSwitch "aria-checked" "false" ;;
     setTitle themeSwitch "Cambiar a tema oscuro") ;;
  localStorage_setItem "theme" theme.

(** The initial resolution of the theme. *)
Definition initTheme (themeSwitch : ref) : M unit :=
  savedTheme <- localStorage_getItem "theme" ;;
  prefersDark <- gets prefersDark ;;
  if truthy savedTheme then applyTheme themeSwitch (toStr savedTheme)
  else if prefersDark then applyTheme themeSwitch "dark"
  else applyTheme themeSwitch "light".

(** The click listener of the theme switch. *)
Definition onThemeSwitchClick (themeSwitch : ref) : M unit :=
  dark <- classList_contains "dark-mode" ;;
  let currentTheme := if dark then "dark" else "light" in
  let newTheme := if String.eqb currentTheme "light" then "dark" else "light" in
  applyTheme themeSwitch newTheme.

(** Lines 327-330: load, then render what was loaded. *)
Definition loadAndRender (response : fetch_outcome) : M unit :=
  data <- loadData response ;;
  if json_truthy data then
    match data with
    | Some d => renderAll d
    | None => ret tt
    end
  else ret tt.

(** The [DOMContentLoaded] listener. *)
Definition onDOMContentLoaded (response : fetch_outcome) : M unit :=
  loadAndRender response ;;
  themeSwitch <- getElementById "theme-switch" ;;
  initTheme themeSwitch ;;
  addEventListener themeSwitch "click" (ThemeSwitchClick themeSwitch) ;;
  setAttribute themeSwitch "role" "switch".

(** Running a registered listener. *)
Definition runListener (l : listener) : M unit :=
  match l with
  | ContactSubmit form personalData => onContactSubmit form personalData
  | ThemeSwitchClick themeSwitch => onThemeSwitchClick themeSwitch
  end.

End Script.

(* ================================================================= *)
(** ** Notions used in the statements *)

(** [s.startsWith(p)] *)
Fixpoint startsWith (s p : string) {struct p} : bool :=
  match p with
  | EmptyString => true
  | String c p' =>
      match s with
      | EmptyString => false
      | String c' s' => Ascii.eqb c c' && startsWith s' p'
      end
  end.

(** [hay.includes(needle)] *)
Fixpoint includes (hay needle : string) : bool :=
  startsWith hay needle
  || match hay with
     | EmptyString => false
     | String _ hay' => includes hay' needle
     end.



(** How a timeline entry starts: its root element, whose class attribute
    is [timeline__item] followed by the side class. *)
Definition timelineItemOpening (sideClass : string) : string :=
  "
                <div class=" ++ dq ++ "timeline__item " ++ sideClass ++ dq ++ " role=" ++ dq ++ "listitem" ++ dq ++ ">".

(** The date line of a timeline entry, from the class name on. *)
Definition timelineDateLine (startDate endDate : string) : string :=
  "timeline__date" ++ dq ++ ">" ++ startDate ++ " - " ++ endDate ++ "</p>".

(** The date line of an academic entry, from the class name on. *)
Definition academicDateLine (startDate endDate : string) : string :=
  "list-item__date" ++ dq ++ ">" ++ startDate ++ " - " ++ endDate ++ "</p>".

(** The theme operations a page performs after it has found its switch. *)
Inductive theme_op := InitialResolution | ToggleClick.

Definition run_theme_op (themeSwitch : ref) (op : theme_op) : M unit :=
  match op with
  | InitialResolution => initTheme themeSwitch
  | ToggleClick => onThemeSwitchClick themeSwitch
  end.

Fixpoint run_theme_ops (themeSwitch : ref) (ops : list theme_op) (w : World)
    : World :=
  match ops with
  | [] => w
  | op :: ops' =>
      run_theme_ops themeSwitch ops' (exec (run_theme_op themeSwitch op) w)
  end.

(** The theme the storage holds is one of the two the switch knows. *)
Definition stored_theme_valid (w : World) : Prop :=
  localStorage w !! "theme" = Some "light"
  \/ localStorage w !! "theme" = Some "dark".

(** ** Examples of inputs *)

Definition monthName (mm : string) : option string :=
  if String.eqb mm "01" then Some "enero"
  else if String.eqb mm "02" then Some "febrero"
  else if String.eqb mm "03" then Some "marzo"
  else if String.eqb mm "04" then Some "abril"
  else if String.eqb mm "05" then Some "mayo"
  else if String.eqb mm "06" then Some "junio"
  else if String.eqb mm "07" then Some "julio"
  else if String.eqb mm "08" then Some "agosto"
  else if String.eqb mm "09" then Some "septiembre"
  else if String.eqb mm "10" then Some "octubre"
  else if String.eqb mm "11" then Some "noviembre"
  else if String.eqb mm "12" then Some "diciembre"
  else None.

(** An instance of the host formatting, for the examples: what a browser
    in the UTC time zone answers on a date written [YYYY-MM-DD]. *)
Definition esES_UTC (s : string) : string :=
  match monthName (substring 5 2 s) with
  | Some month => month ++ " de " ++ substring 0 4 s
  | None => "Invalid Date"
  end.

Definition container (body : bool) : element :=
  {| innerHTML := ""; value := ""; attributes := ∅; inBody := body |}.

(** Modelled from the spec: the host page, which is not among the sources.
    It has the containers of the DOM container contract (section 6), all in
    [body] except the script element of the structured data; nothing is
    stored, the system prefers light. *)
Definition hostPage : World :=
  {| location_href := "https://example.org/";
     prefersDark := false;
     localStorage := ∅;
     document :=
       list_to_map
         [ ("main-header", container true);
           ("about-content", container true);
           ("contact-info", container true);
           ("json-ld-data", container false);
           ("skills-content", container true);
           ("experience-timeline", container true);
           ("certifications-cards", container true);
           ("events-list", container true);
           ("academic-list", container true);
           ("contact-form", container true);
           ("theme-switch", container true) ];
     bodyInnerHTML := None;
     bodyClassList := ∅;
     listeners := [];
     defaultPrevented := false;
     console := [];
     alerts := [];
     navigations := [] |}.

Definition owner : Personal.t :=
  {| Personal.name := "Jose Luis";
     Personal.title := "Ingeniero de software";
     Personal.photo := "assets/foto.jpg";
     Personal.about := "Desarrollador.";
     Personal.email := "jl@example.org";
     Personal.social :=
       [ {| Social.name := "GitHub";
            Social.url := "https://github.com/seluuu";
            Social.icon := "github" |} ] |}.

Definition jobOngoing : Experience.t :=
  {| Experience.title := "Desarrollador";
     Experience.company := "Acme";
     Experience.location := "Madrid";
     Experience.startDate := Some "2021-03-01";
     Experience.endDate := None;
     Experience.description := "Servicios web.";
     Experience.tags := ["JavaScript"; "CSS"] |}.

Definition jobPast : Experience.t :=
  {| Experience.title := "Becario";
     Experience.company := "Initech";
     Experience.location := "Sevilla";
     Experience.startDate := Some "2019-09-01";
     Experience.endDate := Some "2021-02-01";
     Experience.description := "Soporte.";
     Experience.tags := ["HTML"] |}.

Definition academicOngoing : AcademicEntry.t :=
  {| AcademicEntry.degree := "Grado en Informatica";
     AcademicEntry.institution := "Universidad de Sevilla";
     AcademicEntry.startDate := Some "2015-09-01";
     AcademicEntry.endDate := None |}.

(** ** More notions used in the statements *)

(** The message [loadData] logs with the error it caught. *)
Definition loadErrorMessage : string :=
  "Fallo en la carga o validación de datos:".

(** The page has an element with this id. *)
Definition present (id : string) (w : World) : Prop :=
  is_Some (document w !! id).

(** What it means that [render] writes the markup of a list into the
    container [id]: on an array and with the container there, the content
    of the container is replaced by the markup and nothing else changes;
    without the container, or on anything that is not an array, a
    TypeError is thrown and nothing changes. *)
Definition writes_list_to {A} (render : field (list A) -> M unit)
    (id : string) (markup : list A -> string) : Prop :=
  (forall l w, present id w ->
     render (Present l) w
     = (Normal tt, set_document (alter (with_innerHTML (markup l)) id) w))
  /\ (forall f w, document w !! id = None -> render f w = (Throw TypeError, w))
  /\ (forall f w, field_truthy f = false -> render f w = (Throw TypeError, w)).

(** The changes [renderPersonal] makes to the elements of the page, for the
    personal data [p] and the page address [href]. *)
Definition personalWrites (p : Personal.t) (href : string)
    (d : gmap string element) : gmap string element :=
  let links := join "" (map socialLink (Personal.social p)) in
  let jsonLd :=
    {| ld_context := "https://schema.org";
       ld_type := "Person";
       ld_name := Personal.name p;
       ld_jobTitle := Personal.title p;
       ld_url := href;
       ld_email := Personal.email p;
       ld_image := Personal.photo p;
       ld_sameAs := map Social.url (Personal.social p) |} in
  alter (with_innerHTML (JSON_stringify jsonLd)) "json-ld-data"
    (alter (with_innerHTML
              (links ++ emailLink (Personal.email p) (Personal.name p)))
       "contact-info"
       (alter (with_innerHTML
                 ("<p>" ++ Personal.about p ++ "</p>")) "about-content"
          (alter (with_innerHTML
                    (headerMarkup (Personal.photo p) (Personal.name p)
                       (Personal.title p))) "main-header" d))).

(** The changes [renderContactForm] makes to the elements of the page:
    the markup goes into the form, and the controls the markup describes
    are on the page, in [body] if the form is. *)
Definition formWrites (body : bool) (d : gmap string element)
    : gmap string element :=
  foldr (fun c d' => <[fst c := newControl (snd c) body]> d')
    (alter (with_innerHTML contactFormMarkup) "contact-form" d)
    contactFormControls.

(** The visitor types [v] into the control [id]. *)
Definition typeInto (id v : string) (w : World) : World :=
  set_document (alter (with_value v) id) w.

(** The acknowledgement a submission caught by the honeypot gets. *)
Definition spamAcknowledgement : string :=
  "Mensaje enviado (simulación). Gracias por tu interés.".

Definition spamWarning : string := "Intento de spam detectado (honeypot).".

(** What the storage may hold for the theme when the page is loaded
    without having been written by anything but this script. *)
Definition stored_theme_fresh_or_valid (w : World) : Prop :=
  localStorage w !! "theme" = None
  \/ localStorage w !! "theme" = Some ""
  \/ stored_theme_valid w.


Definition documentWithoutSkills : Document :=
  {| personal := Present owner;
     skills := Missing;
     experience := Present [jobOngoing; jobPast];
     certifications := Present [];
     events := Present [];
     academic := Present [academicOngoing] |}.


(* ================================================================= *)
(** * Properties *)

(** ** Strings *)

Lemma append_assoc (s1 s2 s3 : string) : (s1 ++ s2) ++ s3 = s1 ++ (s2 ++ s3).
Proof. induction s1 as [|c s1 IH]; simpl; [reflexivity | now rewrite IH]. Qed.

Lemma append_empty_r (s : string) : s ++ "" = s.
Proof. induction s as [|c s IH]; simpl; [reflexivity | now rewrite IH]. Qed.

Lemma length_append (s1 s2 : string) :
  String.length (s1 ++ s2) = String.length s1 + String.length s2.
Proof. induction s1 as [|c s1 IH]; simpl; [reflexivity | now rewrite IH]. Qed.

(** [substring 0 n s] is the prefix of [s] that is [n] characters long. *)
Lemma substring_prefix (s : string) (n : nat) :
  n <= String.length s ->
  String.length (substring 0 n s) = n
  /\ exists rest, s = substring 0 n s ++ rest.
Proof.
  revert n. induction s as [|c s IH]; intros [|n] Hn; simpl in *.
  - split; [reflexivity | now exists ""].
  - lia.
  - split; [reflexivity | now exists (String c s)].
  - destruct (IH n) as [Hlen [rest Heq]]; [lia|].
    split; [now rewrite Hlen |].
    exists rest. simpl. now rewrite <- Heq.
Qed.

Lemma occurs_in_middle (before needle after : string) :
  occurs_in needle (before ++ needle ++ after).
Proof. now exists before, after. Qed.

Lemma occurs_in_append_l (needle s t : string) :
  occurs_in needle s -> occurs_in needle (t ++ s).
Proof.
  intros [b [a ->]]. exists (t ++ b), a. now rewrite append_assoc.
Qed.

Lemma occurs_in_append_r (needle s t : string) :
  occurs_in needle s -> occurs_in needle (s ++ t).
Proof.
  intros [b [a ->]]. exists b, (a ++ t). now rewrite !append_assoc.
Qed.

(** ** utils *)

(** C2.  [safeTruncate text n] is [text] when [text] has at most [n]
    characters; otherwise it is the first [n] characters of [text]
    followed by the three-character marker ["..."], [n + 3] characters in
    all. *)
Theorem safeTruncate_spec (text : string) (n : nat) :
  (String.length text <= n -> safeTruncate text n = text)
  /\ (n < String.length text ->
      safeTruncate text n = substring 0 n text ++ "..."
      /\ String.length (substring 0 n text) = n
      /\ (exists rest, text = substring 0 n text ++ rest)
      /\ String.length (safeTruncate text n) = n + 3).
Proof.
  unfold safeTruncate. split; intros H.
  - destruct (Nat.leb_spec (String.length text) n); [reflexivity | lia].
  - destruct (Nat.leb_spec (String.length text) n); [lia |].
    destruct (substring_prefix text n) as [Hlen Hrest]; [lia |].
    repeat split; try assumption.
    rewrite length_append, Hlen. reflexivity.
Qed.

Lemma safeTruncate_spec_witness :
  safeTruncate "portfolio" 9 = "portfolio"
  /\ safeTruncate "portfolio" 4 = "port..."
  /\ String.length (safeTruncate "portfolio" 4) = 4 + 3.
Proof.
  destruct (safeTruncate_spec "portfolio" 9) as [Hshort _].
  destruct (safeTruncate_spec "portfolio" 4) as [_ Hlong].
  split; [apply Hshort; simpl; lia |].
  destruct Hlong as [Heq [_ [_ Hlen]]]; [simpl; lia |].
  split; [exact Heq | exact Hlen].
Defined.

Section UtilsProperties.

Variable toLocaleDateString : string -> string.

(** C10.  The empty string is treated as an absent date:
    [formatDate ""] is exactly ["Actualidad"] and [createTimeTag ""] is
    the empty string, the results for an absent date, whatever the host
    formatting does. *)
Theorem empty_date_is_absent :
  formatDate toLocaleDateString (Some "") = "Actualidad"
  /\ createTimeTag toLocaleDateString (Some "") = ""
  /\ formatDate toLocaleDateString (Some "")
     = formatDate toLocaleDateString None
  /\ createTimeTag toLocaleDateString (Some "")
     = createTimeTag toLocaleDateString None.
Proof. repeat split. Qed.

Lemma formatDate_truthy (s : string) :
  s <> "" -> formatDate toLocaleDateString (Some s) = toLocaleDateString s.
Proof.
  intros Hs. unfold formatDate, truthy.
  destruct (String.eqb_spec s ""); [contradiction | reflexivity].
Qed.

Lemma createTimeTag_falsy (d : option string) :
  truthy d = false -> createTimeTag toLocaleDateString d = "".
Proof. intros H. unfold createTimeTag. now rewrite H. Qed.

End UtilsProperties.

(* ================================================================= *)
(** ** More on truncation and time tags *)

Lemma substring_append_exact (s t : string) :
  substring 0 (String.length s) (s ++ t) = s.
Proof.
  induction s as [|c s IH]; simpl.
  - destruct t; reflexivity.
  - now rewrite IH.
Qed.

(** X1.  Truncating what was truncated changes nothing: the marker is cut off
    and put back. *)
Theorem safeTruncate_idempotent (text : string) (n : nat) :
  safeTruncate (safeTruncate text n) n = safeTruncate text n.
Proof.
  unfold safeTruncate at 2 3.
  destruct (Nat.leb_spec (String.length text) n) as [Hle | Hlt].
  - unfold safeTruncate. destruct (Nat.leb_spec (String.length text) n); [reflexivity | lia].
  - destruct (substring_prefix text n) as [Hlen _]; [lia |].
    unfold safeTruncate. rewrite length_append, Hlen.
    destruct (Nat.leb_spec (n + String.length "...") n) as [Hbad | _];
      [simpl in Hbad; lia |].
    rewrite <- Hlen at 1. now rewrite substring_append_exact.
Qed.

(** X2.  The result is longer than the text exactly when the text exceeds the
    limit by one or two characters. *)
Theorem safeTruncate_longer_than_input (text : string) (n : nat) :
  String.length text < String.length (safeTruncate text n)
  <-> n < String.length text < n + 3.
Proof.
  unfold safeTruncate.
  destruct (Nat.leb_spec (String.length text) n) as [Hle | Hlt].
  - lia.
  - destruct (substring_prefix text n) as [Hlen _]; [lia |].
    rewrite length_append, Hlen. simpl. lia.
Qed.

Section TimeTagProperties.

Variable toLocaleDateString : string -> string.

(** X3.  [createTimeTag] never shows the label of [formatDate]: it gives the
    empty string on a falsy date, and on every other date a [time] element
    whose text is the host's formatting of that date. *)
Theorem createTimeTag_cases (d : option string) :
  (truthy d = false /\ createTimeTag toLocaleDateString d = "")
  \/ (exists s, d = Some s /\ s <> ""
        /\ createTimeTag toLocaleDateString d
           = "<time datetime=" ++ dq ++ s ++ dq ++ ">"
             ++ toLocaleDateString s ++ "</time>").
Proof.
  destruct d as [s |]; [| left; split; reflexivity].
  destruct (String.eqb_spec s "") as [-> | Hne].
  - left. split; reflexivity.
  - right. exists s. split; [reflexivity | split; [assumption |]].
    unfold createTimeTag, formatDate, truthy.
    destruct (String.eqb_spec s ""); [contradiction | reflexivity].
Qed.

End TimeTagProperties.

(* ================================================================= *)
(** ** Loading *)

Lemma loadData_cases (response : fetch_outcome) (w : World) :
  (exists data, loadData response w = (Normal (Some data), w))
  \/ (exists e,
        let w' := exec (loadData response) w in
        eval (loadData response) w = Normal None
        /\ console w' = (console w ++ [ConsoleError loadErrorMessage e])%list
        /\ bodyInnerHTML w' = Some errorMarkup
        /\ (forall id el,
              document w' !! id = Some el
              <-> document w !! id = Some el /\ inBody el = false)
        /\ localStorage w' = localStorage w
        /\ bodyClassList w' = bodyClassList w
        /\ listeners w' = listeners w
        /\ alerts w' = alerts w
        /\ navigations w' = navigations w).
Proof.
  assert (Hfatal : forall e (m : M (option json)),
    m w = (Throw e, w) ->
    let h := fun error =>
      (console_error loadErrorMessage error ;;
       setBodyInnerHTML errorMarkup ;; ret None) in
    let w' := exec (try_catch m h) w in
    eval (try_catch m h) w = Normal None
    /\ console w' = (console w ++ [ConsoleError loadErrorMessage e])%list
    /\ bodyInnerHTML w' = Some errorMarkup
    /\ (forall id el,
          document w' !! id = Some el
          <-> document w !! id = Some el /\ inBody el = false)
    /\ localStorage w' = localStorage w
    /\ bodyClassList w' = bodyClassList w
    /\ listeners w' = listeners w
    /\ alerts w' = alerts w
    /\ navigations w' = navigations w).
  { intros e m Hm. unfold exec, eval, try_catch. rewrite Hm. simpl.
    do 3 (split; [reflexivity |]).
    split; [| repeat split].
    intros id el. apply map_lookup_filter_Some. }
  unfold loadData.
  destruct response as [| ok statusText body].
  { right. exists NetworkError. apply Hfatal. reflexivity. }
  destruct ok; simpl negb; cbv iota.
  2:{ right. eexists. apply Hfatal. reflexivity. }
  destruct body as [data |].
  2:{ right. exists SyntaxError. apply Hfatal. reflexivity. }
  destruct data as [| t | doc].
  - right. exists TypeError. apply Hfatal. reflexivity.
  - right. eexists. apply Hfatal. reflexivity.
  - destruct doc as [p s e c ev a].
    destruct p as [| vp | p]; [right; eexists; apply Hfatal; reflexivity .. |].
    destruct s as [| vs | s]; [right; eexists; apply Hfatal; reflexivity .. |].
    destruct e as [| ve | e]; [right; eexists; apply Hfatal; reflexivity .. |].
    left. eexists. reflexivity.
Qed.


Lemma loadData_success_iff (response : fetch_outcome) (w : World)
    (data : json) :
  eval (loadData response) w = Normal (Some data)
  <-> exists statusText doc,
        response = Response true statusText (Some (JsonObject doc))
        /\ data = JsonObject doc
        /\ field_truthy (personal doc) = true
        /\ field_truthy (skills doc) = true
        /\ field_truthy (experience doc) = true.
Proof.
  split.
  - destruct response as [| ok statusText body]; [discriminate |].
    destruct ok; [| discriminate].
    destruct body as [d |]; [| discriminate].
    destruct d as [| t | doc]; [discriminate | discriminate |].
    destruct doc as [p s e c ev a].
    destruct p as [| vp | p]; [discriminate | discriminate |].
    destruct s as [| vs | s]; [discriminate | discriminate |].
    destruct e as [| ve | e]; [discriminate | discriminate |].
    intros H. injection H as <-. exists statusText. eexists.
    repeat split.
  - intros [statusText [doc [-> [-> [Hp [Hs He]]]]]].
    destruct doc as [p s e c ev a]; simpl in *.
    destruct p; try discriminate. destruct s; try discriminate.
    destruct e; try discriminate. reflexivity.
Qed.

(** X5.  What a caller may rely on: [loadData] returns data exactly when the
    response was successful and its body is an object whose [personal],
    [skills] and [experience] are all truthy; the data returned is that
    object. *)
Theorem loadData_returns_data_iff (response : fetch_outcome) (w : World)
    (data : json) :
  eval (loadData response) w = Normal (Some data)
  <-> exists statusText doc,
        response = Response true statusText (Some (JsonObject doc))
        /\ data = JsonObject doc
        /\ field_truthy (personal doc) = true
        /\ field_truthy (skills doc) = true
        /\ field_truthy (experience doc) = true.
Proof. exact (loadData_success_iff response w data). Qed.

(* ================================================================= *)
(** ** Computations *)

Lemma bind_normal {A B} (m : M A) (k : A -> M B) (w w' : World) (a : A) :
  m w = (Normal a, w') -> bind m k w = k a w'.
Proof. intros H. unfold bind. now rewrite H. Qed.

Lemma bind_throw {A B} (m : M A) (k : A -> M B) (w w' : World) (e : exn) :
  m w = (Throw e, w') -> bind m k w = (Throw e, w').
Proof. intros H. unfold bind. now rewrite H. Qed.

Lemma getElementById_present (id : string) (w : World) :
  present id w -> getElementById id w = (Normal (Some id), w).
Proof.
  intros [el Hel]. unfold getElementById, bind, gets, ret. now rewrite Hel.
Qed.

Lemma getElementById_absent (id : string) (w : World) :
  document w !! id = None -> getElementById id w = (Normal None, w).
Proof.
  intros Hel. unfold getElementById, bind, gets, ret. now rewrite Hel.
Qed.

Lemma present_set_document_alter (id j : string) (f : element -> element)
    (w : World) :
  present id (set_document (alter f j) w) <-> present id w.
Proof.
  unfold present. simpl. rewrite lookup_alter.
  destruct (decide (j = id)) as [-> |]; [| reflexivity].
  destruct (document w !! id); simpl; split; intros [x Hx]; eauto.
Qed.

(** ** The list renderers *)

(** The shape the five list renderers share. *)
Lemma writes_list_to_intro {A} (id : string) (markup : list A -> string) :
  writes_list_to
    (fun xs => r <- getElementById id ;;
               l <- asArray xs ;;
               setInnerHTML r (markup l))
    id markup.
Proof.
  repeat split.
  - intros l w Hp. rewrite (bind_normal _ _ _ _ _ (getElementById_present _ _ Hp)).
    reflexivity.
  - intros f w Hn. rewrite (bind_normal _ _ _ _ _ (getElementById_absent _ _ Hn)).
    destruct f; reflexivity.
  - intros f w Hf. unfold bind, getElementById, gets, ret.
    destruct (document w !! id); destruct f; try discriminate; reflexivity.
Qed.

Section ListRenderers.

Variable toLocaleDateString : string -> string.

Lemma list_renderers_write :
  writes_list_to renderSkills "skills-content"
    (fun l => join "" (map skillCard l))
  /\ writes_list_to (renderExperience toLocaleDateString) "experience-timeline"
       (fun l => join "" (imap (timelineItem toLocaleDateString) l))
  /\ writes_list_to (renderCertifications toLocaleDateString)
       "certifications-cards"
       (fun l => join "" (map (certificationCard toLocaleDateString) l))
  /\ writes_list_to (renderEvents toLocaleDateString) "events-list"
       (fun l => join "" (map (eventItem toLocaleDateString) l))
  /\ writes_list_to (renderAcademic toLocaleDateString) "academic-list"
       (fun l => join "" (map (academicItem toLocaleDateString) l)).
Proof.
  repeat split; apply writes_list_to_intro.
Qed.


End ListRenderers.

Lemma alter_alter_same (f : element -> element) (id : string)
    (d : gmap string element) :
  (forall el, f (f el) = f el) -> alter f id (alter f id d) = alter f id d.
Proof.
  intros Hf. apply map_eq. intros j.
  destruct (decide (id = j)) as [<- | Hne].
  - rewrite !lookup_alter_eq. destruct (d !! id); cbn; [f_equal; apply Hf | reflexivity].
  - now rewrite !lookup_alter_ne.
Qed.

Lemma writes_list_to_idempotent {A} (render : field (list A) -> M unit)
    (id : string) (markup : list A -> string) :
  writes_list_to render id markup ->
  forall f w, exec (render f) (exec (render f) w) = exec (render f) w.
Proof.
  intros [Hok [Hmissing Hnot]] f w. unfold exec.
  destruct f as [| v | l];
    [rewrite (Hnot Missing w eq_refl); simpl; now rewrite (Hnot Missing w eq_refl)
    | rewrite (Hnot (Falsy v) w eq_refl); simpl;
      now rewrite (Hnot (Falsy v) w eq_refl) |].
  destruct (document w !! id) as [el |] eqn:Hel.
  - assert (Hp : present id w) by (eexists; eassumption).
    rewrite (Hok l w Hp). simpl.
    rewrite Hok by (now apply present_set_document_alter). simpl.
    unfold set_document; simpl. f_equal.
    apply alter_alter_same. intros x. reflexivity.
  - rewrite (Hmissing _ _ Hel). simpl. now rewrite (Hmissing _ _ Hel).
Qed.

Section RenderTwice.

Variable toLocaleDateString : string -> string.

(** X7.  Rendering a section a second time changes nothing: every list
    renderer replaces the whole content of its container. *)
Theorem list_renderers_idempotent :
  (forall f w, exec (renderSkills f) (exec (renderSkills f) w)
               = exec (renderSkills f) w)
  /\ (forall f w,
        exec (renderExperience toLocaleDateString f)
          (exec (renderExperience toLocaleDateString f) w)
        = exec (renderExperience toLocaleDateString f) w)
  /\ (forall f w,
        exec (renderCertifications toLocaleDateString f)
          (exec (renderCertifications toLocaleDateString f) w)
        = exec (renderCertifications toLocaleDateString f) w)
  /\ (forall f w,
        exec (renderEvents toLocaleDateString f)
          (exec (renderEvents toLocaleDateString f) w)
        = exec (renderEvents toLocaleDateString f) w)
  /\ (forall f w,
        exec (renderAcademic toLocaleDateString f)
          (exec (renderAcademic toLocaleDateString f) w)
        = exec (renderAcademic toLocaleDateString f) w).
Proof.
  destruct (list_renderers_write toLocaleDateString)
    as [Hs [He [Hc [Hv Ha]]]].
  repeat split; intros f w; eapply writes_list_to_idempotent; eassumption.
Qed.

End RenderTwice.

(** ** Markup of concatenated lists *)

Lemma join_empty_cons (x : string) (l : list string) :
  join "" (x :: l) = x ++ join "" l.
Proof.
  destruct l as [| y l]; simpl.
  - now rewrite append_empty_r.
  - reflexivity.
Qed.

Lemma join_empty_app (l1 l2 : list string) :
  join "" (l1 ++ l2)%list = join "" l1 ++ join "" l2.
Proof.
  induction l1 as [| x l1 IH].
  - reflexivity.
  - change ((x :: l1) ++ l2)%list with (x :: (l1 ++ l2))%list.
    now rewrite !join_empty_cons, IH, append_assoc.
Qed.

Lemma sideClass_parity (index : nat) :
  (index mod 2 =? 0)%nat = Nat.even index.
Proof.
  destruct (Nat.even index) eqn:E.
  - apply Nat.eqb_eq. apply Nat.even_spec in E. destruct E as [k ->].
    rewrite Nat.mul_comm. apply Nat.Div0.mod_mul.
  - apply Nat.eqb_neq. intros H.
    apply Nat.Div0.mod_divides in H. destruct H as [k ->].
    rewrite Nat.even_mul in E. discriminate.
Qed.

Section MarkupOfLists.

Variable toLocaleDateString : string -> string.

Lemma timelineItem_parity (i j : nat) (job : Experience.t) :
  Nat.even i = Nat.even j ->
  timelineItem toLocaleDateString i job = timelineItem toLocaleDateString j job.
Proof.
  intros H. unfold timelineItem. now rewrite !sideClass_parity, H.
Qed.

(** X8.  The markup of the sections without positions is compositional: the
    markup of a list followed by another is the markup of the first
    followed by the markup of the second. *)
Theorem section_markup_app :
  (forall l1 l2 : list SkillCategory.t,
     join "" (map skillCard (l1 ++ l2)%list)
     = join "" (map skillCard l1) ++ join "" (map skillCard l2))
  /\ (forall l1 l2 : list Certification.t,
        join "" (map (certificationCard toLocaleDateString) (l1 ++ l2)%list)
        = join "" (map (certificationCard toLocaleDateString) l1)
          ++ join "" (map (certificationCard toLocaleDateString) l2))
  /\ (forall l1 l2 : list Event.t,
        join "" (map (eventItem toLocaleDateString) (l1 ++ l2)%list)
        = join "" (map (eventItem toLocaleDateString) l1)
          ++ join "" (map (eventItem toLocaleDateString) l2))
  /\ (forall l1 l2 : list AcademicEntry.t,
        join "" (map (academicItem toLocaleDateString) (l1 ++ l2)%list)
        = join "" (map (academicItem toLocaleDateString) l1)
          ++ join "" (map (academicItem toLocaleDateString) l2)).
Proof.
  repeat split; intros l1 l2; now rewrite map_app, join_empty_app.
Qed.

(** X9.  In the timeline the side of an entry depends on its position: after
    an even number of entries the following ones are rendered as they
    would be on their own; after an odd number they are rendered as if
    each stood one place later, on the other side. *)
Theorem timeline_markup_app (l1 l2 : list Experience.t) :
  (Nat.even (length l1) = true ->
   join "" (imap (timelineItem toLocaleDateString) (l1 ++ l2)%list)
   = join "" (imap (timelineItem toLocaleDateString) l1)
     ++ join "" (imap (timelineItem toLocaleDateString) l2))
  /\ (Nat.even (length l1) = false ->
      join "" (imap (timelineItem toLocaleDateString) (l1 ++ l2)%list)
      = join "" (imap (timelineItem toLocaleDateString) l1)
        ++ join "" (imap (fun i => timelineItem toLocaleDateString (S i)) l2)).
Proof.
  split; intros Hpar; rewrite imap_app, join_empty_app; f_equal; f_equal;
    apply imap_ext; intros i job _; apply timelineItem_parity.
  - rewrite Nat.even_add, Hpar. now destruct (Nat.even i).
  - rewrite Nat.even_add, Hpar, Nat.even_succ, <- Nat.negb_even.
    now destruct (Nat.even i).
Qed.

End MarkupOfLists.

Lemma timeline_markup_app_witness :
  join "" (imap (timelineItem esES_UTC) ([jobPast; jobOngoing] ++ [jobPast])%list)
  = join "" (imap (timelineItem esES_UTC) [jobPast; jobOngoing])
    ++ join "" (imap (timelineItem esES_UTC) [jobPast])
  /\ join "" (imap (timelineItem esES_UTC) ([jobPast] ++ [jobOngoing])%list)
     = join "" (imap (timelineItem esES_UTC) [jobPast])
       ++ join "" (imap (fun i => timelineItem esES_UTC (S i)) [jobOngoing]).
Proof.
  split.
  - apply (timeline_markup_app esES_UTC [jobPast; jobOngoing] [jobPast]).
    reflexivity.
  - apply (timeline_markup_app esES_UTC [jobPast] [jobOngoing]).
    reflexivity.
Defined.

(** ** The personal section *)

Lemma present_set_document (id : string)
    (g : gmap string element -> gmap string element) (w : World) :
  (forall d, is_Some (g d !! id) <-> is_Some (d !! id)) ->
  present id (set_document g w) <-> present id w.
Proof. intros Hg. unfold present. simpl. apply Hg. Qed.

Lemma is_Some_alter (f : element -> element) (j id : string)
    (d : gmap string element) :
  is_Some (alter f j d !! id) <-> is_Some (d !! id).
Proof.
  destruct (decide (j = id)) as [-> | Hne].
  - rewrite lookup_alter_eq. destruct (d !! id); cbn; split; intros [x Hx]; eauto.
  - now rewrite lookup_alter_ne.
Qed.

Create HintDb present.
#[local] Hint Resolve -> present_set_document_alter : present.
#[local] Hint Resolve <- present_set_document_alter : present.



Lemma generateJsonLd_section (p : Personal.t) (w : World) :
  generateJsonLd (Present p) w
  = (Normal {| ld_context := "https://schema.org";
               ld_type := "Person";
               ld_name := Personal.name p;
               ld_jobTitle := Personal.title p;
               ld_url := location_href w;
               ld_email := Personal.email p;
               ld_image := Personal.photo p;
               ld_sameAs := map Social.url (Personal.social p) |}, w).
Proof. reflexivity. Qed.


Lemma is_Some_personalWrites (p : Personal.t) (href id : string)
    (d : gmap string element) :
  is_Some (personalWrites p href d !! id) <-> is_Some (d !! id).
Proof. unfold personalWrites. cbv zeta. now rewrite !is_Some_alter. Qed.

Lemma present_personalWrites (p : Personal.t) (href id : string) (w : World) :
  present id w -> present id (set_document (personalWrites p href) w).
Proof. unfold present. simpl. now rewrite is_Some_personalWrites. Qed.

#[local] Hint Resolve present_personalWrites : present.


Lemma present_by_lookup (id : string) (el : element) (w : World) :
  document w !! id = Some el -> present id w.
Proof. intros H. exists el. exact H. Qed.


(** ** The contact form *)

Ltac unfold_ops :=
  unfold onContactSubmit, reset, getValue, getElementById, preventDefault,
    console_warn, alert, navigate, prop, bind, gets, ret, modify, throw.

Ltac split_cases :=
  repeat match goal with
    | |- context [match ?x with _ => _ end] =>
        match x with
        | context [match _ with _ => _ end] => fail 1
        | _ => destruct x eqn:?
        end
    | |- context [if ?x then _ else _] =>
        match x with
        | context [match _ with _ => _ end] => fail 1
        | _ => destruct x eqn:?
        end
    end.

(** X11.  The submit listener always prevents the default action, on every
    page and with any data, also when it throws afterwards. *)
Theorem onContactSubmit_prevents_default (form : ref)
    (personalData : field Personal.t) (w : World) :
  defaultPrevented (exec (onContactSubmit form personalData) w) = true.
Proof.
  unfold exec. unfold_ops. cbn [document set_defaultPrevented].
  split_cases; reflexivity.
Qed.

Lemma renderContactForm_run (personalData : field Personal.t) (w : World)
    (formEl : element) :
  document w !! "contact-form" = Some formEl ->
  renderContactForm personalData w
  = (Normal tt,
     set_listeners
       (fun ls => (ls ++ [("contact-form", "submit",
                           ContactSubmit (Some "contact-form") personalData)])%list)
       (set_document (formWrites (inBody formEl)) w)).
Proof.
  intros Hform. unfold renderContactForm.
  rewrite (bind_normal _ _ _ _ _
             (getElementById_present _ _ (present_by_lookup _ _ _ Hform))).
  erewrite bind_normal by reflexivity; cbv beta.
  unfold createControls, bind, modify, addEventListener.
  cbn [document set_document].
  rewrite lookup_alter_eq, Hform. reflexivity.
Qed.



Lemma control_ids_cases (j : string) :
  j ∈ (fst <$> contactFormControls) ->
  j = "name" \/ j = "email" \/ j = "subject" \/ j = "message" \/ j = "fax".
Proof.
  unfold contactFormControls. cbn [fmap list_fmap fst].
  rewrite !elem_of_cons, elem_of_nil. tauto.
Qed.

Lemma not_control_id (j : string) :
  j ∉ (fst <$> contactFormControls) ->
  j <> "name" /\ j <> "email" /\ j <> "subject" /\ j <> "message" /\ j <> "fax".
Proof.
  unfold contactFormControls. cbn [fmap list_fmap fst].
  rewrite !elem_of_cons, elem_of_nil. tauto.
Qed.

(** What [form.reset()] does to one element. *)
Lemma reset_lookup (X : gmap string element) (j : string) :
  let R := foldr (fun c d' =>
                    alter (fun el => with_value (defaultValue el) el) (fst c) d')
             X contactFormControls in
  (j ∈ (fst <$> contactFormControls) ->
   R !! j = (fun el => with_value (defaultValue el) el) <$> X !! j)
  /\ (j ∉ (fst <$> contactFormControls) -> R !! j = X !! j).
Proof.
  unfold contactFormControls at 1 2. cbn [foldr fst snd]. split; intros Hj.
  - apply control_ids_cases in Hj.
    destruct Hj as [-> | [-> | [-> | [-> | ->]]]];
      rewrite ?lookup_alter_ne by done; rewrite lookup_alter_eq;
      now rewrite ?lookup_alter_ne by done.
  - apply not_control_id in Hj. destruct Hj as [? [? [? [? ?]]]].
    now rewrite !lookup_alter_ne.
Qed.

Lemma formWrites_control (body : bool) (d : gmap string element) (j : string) :
  j ∈ (fst <$> contactFormControls) ->
  exists attrs, formWrites body d !! j = Some (newControl attrs body).
Proof.
  intros Hj. apply control_ids_cases in Hj.
  unfold formWrites, contactFormControls. cbn [foldr fst snd].
  destruct Hj as [-> | [-> | [-> | [-> | ->]]]];
    rewrite ?lookup_insert_ne by done; rewrite lookup_insert_eq; eauto.
Qed.

Lemma typed_lookup (edits : list (string * string)) (d : gmap string element)
    (j : string) :
  let d' := foldr (fun e acc => alter (with_value (snd e)) (fst e) acc) d edits in
  (forall el, d !! j = Some el ->
     exists v, d' !! j = Some (with_value v el))
  /\ (Forall (fun e => fst e <> j) edits -> d' !! j = d !! j).
Proof.
  induction edits as [| [id v] edits [IH1 IH2]]; cbn [foldr fst snd].
  - split; [| reflexivity]. intros [h v a b] Hel. exists v. exact Hel.
  - split.
    + intros el Hel. destruct (IH1 el Hel) as [v' Hv'].
      destruct (decide (id = j)) as [-> | Hne].
      * rewrite lookup_alter_eq, Hv'. exists v. reflexivity.
      * rewrite lookup_alter_ne by done. eauto.
    + intros Hall. apply Forall_cons in Hall as [Hne Hall]. cbn in Hne.
      rewrite lookup_alter_ne by done. auto.
Qed.

Lemma typed_world (edits : list (string * string)) (w : World) :
  foldr (fun e acc => typeInto (fst e) (snd e) acc) w edits
  = set_document
      (fun d => foldr (fun e acc => alter (with_value (snd e)) (fst e) acc) d edits)
      w.
Proof.
  induction edits as [| [id v] edits IH]; cbn [foldr fst snd].
  - destruct w; reflexivity.
  - rewrite IH. reflexivity.
Qed.

Lemma reset_typed_document (body : bool) (d : gmap string element)
    (edits : list (string * string)) :
  Forall (fun e => fst e ∈ (fst <$> contactFormControls)) edits ->
  foldr (fun c d' =>
           alter (fun el => with_value (defaultValue el) el) (fst c) d')
    (foldr (fun e acc => alter (with_value (snd e)) (fst e) acc)
       (formWrites body d) edits)
    contactFormControls
  = formWrites body d.
Proof.
  intros Hedits. apply map_eq. intros j.
  destruct (reset_lookup
              (foldr (fun e acc => alter (with_value (snd e)) (fst e) acc)
                 (formWrites body d) edits) j) as [Hin Hout].
  destruct (typed_lookup edits (formWrites body d) j) as [Hty Hsame].
  cbv zeta in *.
  destruct (decide (j ∈ (fst <$> contactFormControls))) as [Hj | Hj].
  - rewrite (Hin Hj).
    destruct (formWrites_control body d j Hj) as [attrs Hctl].
    destruct (Hty _ Hctl) as [v Hv]. rewrite Hv, Hctl. reflexivity.
  - rewrite (Hout Hj). apply Hsame.
    eapply Forall_impl; [exact Hedits |]. intros e He Heq.
    apply Hj. now rewrite <- Heq.
Qed.

(** X13.  Whatever the visitor typed into the controls, [form.reset()] brings
    the page back to what it was right after the form was rendered. *)
Theorem reset_restores_rendered_form (personalData : field Personal.t)
    (w : World) (formEl : element) (edits : list (string * string)) :
  document w !! "contact-form" = Some formEl ->
  Forall (fun e => fst e ∈ (fst <$> contactFormControls)) edits ->
  let w1 := exec (renderContactForm personalData) w in
  let w2 := foldr (fun e acc => typeInto (fst e) (snd e) acc) w1 edits in
  reset (Some "contact-form") w2 = (Normal tt, w1).
Proof.
  intros Hform Hedits w1 w2. subst w2. rewrite typed_world. subst w1.
  unfold exec. rewrite (renderContactForm_run personalData w formEl Hform).
  cbn [snd]. unfold reset, modify. f_equal.
  unfold set_document at 1 2. unfold set_listeners.
  cbn [location_href prefersDark localStorage document bodyInnerHTML
       bodyClassList listeners defaultPrevented console alerts navigations
       set_document].
  f_equal. now apply reset_typed_document.
Qed.

Lemma reset_restores_rendered_form_witness :
  reset (Some "contact-form")
    (typeInto "fax" "bot"
       (typeInto "subject" "Hi"
          (exec (renderContactForm (Present owner)) hostPage)))
  = (Normal tt, exec (renderContactForm (Present owner)) hostPage).
Proof.
  apply (reset_restores_rendered_form (Present owner) hostPage (container true)
           [("fax", "bot"); ("subject", "Hi")] eq_refl).
  repeat constructor.
Defined.

Lemma reset_projection {B} (proj : element -> B) (X : gmap string element)
    (j : string) :
  (forall el v, proj (with_value v el) = proj el) ->
  proj <$> (foldr (fun c d' =>
                     alter (fun el => with_value (defaultValue el) el) (fst c) d')
              X contactFormControls) !! j
  = proj <$> X !! j.
Proof.
  intros Hproj. destruct (reset_lookup X j) as [Hin Hout]. cbv zeta in *.
  destruct (decide (j ∈ (fst <$> contactFormControls))) as [Hj | Hj].
  - rewrite (Hin Hj). destruct (X !! j); cbn; [now rewrite Hproj | reflexivity].
  - now rewrite (Hout Hj).
Qed.

(** X14.  Whatever the page and the data are, the submit listener changes of the
    page only the values of the controls: the storage, the class list and
    content of the body, the listeners, and the markup, attributes and
    place of every element stay as they were. *)
Theorem onContactSubmit_frame (form : ref) (personalData : field Personal.t)
    (w : World) :
  let w' := exec (onContactSubmit form personalData) w in
  localStorage w' = localStorage w
  /\ bodyClassList w' = bodyClassList w
  /\ bodyInnerHTML w' = bodyInnerHTML w
  /\ listeners w' = listeners w
  /\ (forall id,
        innerHTML <$> document w' !! id = innerHTML <$> document w !! id
        /\ attributes <$> document w' !! id = attributes <$> document w !! id
        /\ inBody <$> document w' !! id = inBody <$> document w !! id).
Proof.
  cbv zeta. unfold exec. unfold_ops.
  cbn [document set_defaultPrevented set_console set_alerts set_navigations].
  split_cases;
    cbn [snd localStorage bodyClassList bodyInnerHTML listeners
         document set_document set_alerts set_console set_navigations
         set_defaultPrevented];
    (do 4 (split; [reflexivity |]));
    intros id; try (repeat split; reflexivity);
    (split; [| split]); apply reset_projection; reflexivity.
Qed.


(** ** The mail link *)







(** X16.  A submission with something in the honeypot: the default is
    prevented, the warning is logged, the acknowledgement is shown, the
    controls go back to their initial values and no navigation is asked
    for, whatever else is on the page. *)
Theorem honeypot_submission (formId : string) (personalData : field Personal.t)
    (w : World) (faxEl : element) :
  document w !! "fax" = Some faxEl ->
  value faxEl <> "" ->
  let w' := exec (onContactSubmit (Some formId) personalData) w in
  eval (onContactSubmit (Some formId) personalData) w = Normal tt
  /\ defaultPrevented w' = true
  /\ console w' = (console w ++ [ConsoleWarn spamWarning])%list
  /\ alerts w' = (alerts w ++ [spamAcknowledgement])%list
  /\ navigations w' = navigations w
  /\ (forall id,
        id ∈ (fst <$> contactFormControls) ->
        document w' !! id
        = (fun el => with_value (defaultValue el) el) <$> document w !! id)
  /\ (forall id,
        id ∉ (fst <$> contactFormControls) ->
        document w' !! id = document w !! id).
Proof.
  intros Hfax Hval. cbv zeta. unfold exec, eval. unfold_ops.
  repeat (progress (cbn [document set_defaultPrevented truthy];
                    rewrite ?Hfax)).
  destruct (String.eqb_spec (value faxEl) "") as [Heq | _]; [contradiction |].
  cbn [negb fst snd defaultPrevented console alerts navigations document
       set_document set_alerts set_console set_defaultPrevented].
  do 5 (split; [reflexivity |]).
  split; intros id Hid.
  - now apply (proj1 (reset_lookup (document w) id)).
  - now apply (proj2 (reset_lookup (document w) id)).
Qed.

Lemma honeypot_submission_witness :
  let w :=
    typeInto "fax" "http://spam.example"
      (exec (renderContactForm (Present owner)) hostPage) in
  navigations (exec (onContactSubmit (Some "contact-form") (Present owner)) w)
  = []
  /\ alerts (exec (onContactSubmit (Some "contact-form") (Present owner)) w)
     = [spamAcknowledgement].
Proof.
  cbv zeta.
  assert (Hne : "http://spam.example" <> "") by discriminate.
  pose proof (honeypot_submission "contact-form" (Present owner)
    (typeInto "fax" "http://spam.example"
       (exec (renderContactForm (Present owner)) hostPage))
    (with_value "http://spam.example"
       (newControl [("type", "text"); ("id", "fax"); ("name", "fax");
                    ("tabindex", "-1"); ("autocomplete", "off")] true))
    eq_refl Hne) as H.
  cbv zeta in H. destruct H as [_ [_ [_ [Ha [Hn _]]]]].
  split; [exact Hn | exact Ha].
Defined.



(** ** Entries of the timeline and of the academic list *)

Lemma occurs_in_prefix (needle s : string) :
  (exists after, s = needle ++ after) -> occurs_in needle s.
Proof. intros [after ->]. now exists "", after. Qed.

Lemma prefix_peel (x n s : string) :
  (exists after, s = n ++ after) -> exists after, x ++ s = (x ++ n) ++ after.
Proof. intros [after ->]. exists after. now rewrite append_assoc. Qed.

Ltac find_occurrence :=
  repeat first
    [ apply occurs_in_prefix;
      solve [ repeat apply prefix_peel; eexists; reflexivity ]
    | apply occurs_in_append_l ].

Section Entries.

Variable toLocaleDateString : string -> string.

(** X18.  The entry of the timeline at position [i] is the markup of the job
    there; it starts with the root element, which carries the class
    [timeline__item--right] exactly at odd positions; and its date line
    shows the start and, after the dash, the end, or the label
    ["Actualidad"] when the job has no end date. *)
Theorem timeline_entry_shape (jobs : list Experience.t) (i : nat)
    (job : Experience.t) :
  jobs !! i = Some job ->
  imap (timelineItem toLocaleDateString) jobs !! i
  = Some (timelineItem toLocaleDateString i job)
  /\ (exists rest,
        timelineItem toLocaleDateString i job
        = timelineItemOpening
            (if Nat.even i then "" else "timeline__item--right") ++ rest)
  /\ occurs_in
       (timelineDateLine
          (createTimeTag toLocaleDateString (Experience.startDate job))
          (if truthy (Experience.endDate job)
           then createTimeTag toLocaleDateString (Experience.endDate job)
           else "Actualidad"))
       (timelineItem toLocaleDateString i job).
Proof.
  intros Hjob. split; [| split].
  - now rewrite list_lookup_imap, Hjob.
  - unfold timelineItem, timelineItemOpening. rewrite sideClass_parity.
    apply prefix_peel. apply prefix_peel. apply prefix_peel.
    apply prefix_peel. apply prefix_peel. apply prefix_peel.
    apply prefix_peel. apply prefix_peel.
    eexists. reflexivity.
  - unfold timelineItem, timelineDateLine. cbv zeta. find_occurrence.
Qed.

(** X19.  The date line of an academic entry shows two time tags around the
    dash; an entry without end date has nothing after the dash. *)
Theorem academic_entry_dates (item : AcademicEntry.t) :
  occurs_in
    (academicDateLine
       (createTimeTag toLocaleDateString (AcademicEntry.startDate item))
       (createTimeTag toLocaleDateString (AcademicEntry.endDate item)))
    (academicItem toLocaleDateString item)
  /\ (truthy (AcademicEntry.endDate item) = false ->
      occurs_in
        (academicDateLine
           (createTimeTag toLocaleDateString (AcademicEntry.startDate item)) "")
        (academicItem toLocaleDateString item)).
Proof.
  assert (H : occurs_in
    (academicDateLine
       (createTimeTag toLocaleDateString (AcademicEntry.startDate item))
       (createTimeTag toLocaleDateString (AcademicEntry.endDate item)))
    (academicItem toLocaleDateString item)).
  { unfold academicItem, academicDateLine. cbv zeta. find_occurrence. }
  split; [exact H |].
  intros Hend. now rewrite (createTimeTag_falsy _ _ Hend) in H.
Qed.

End Entries.

Lemma timeline_entry_shape_witness :
  imap (timelineItem esES_UTC) [jobPast; jobOngoing] !! 1%nat
  = Some (timelineItem esES_UTC 1 jobOngoing)
  /\ occurs_in
       (timelineDateLine
          (createTimeTag esES_UTC (Some "2021-03-01")) "Actualidad")
       (timelineItem esES_UTC 1 jobOngoing).
Proof.
  destruct (timeline_entry_shape esES_UTC [jobPast; jobOngoing] 1 jobOngoing
              eq_refl) as [H1 [_ H3]].
  split; [exact H1 | exact H3].
Defined.

Lemma academic_entry_dates_witness :
  occurs_in
    (academicDateLine (createTimeTag esES_UTC (Some "2015-09-01")) "")
    (academicItem esES_UTC academicOngoing)
  /\ includes (academicItem esES_UTC academicOngoing) "Actualidad" = false.
Proof.
  split.
  - apply (proj2 (academic_entry_dates esES_UTC academicOngoing)). reflexivity.
  - reflexivity.
Defined.

(** ** The theme *)

Lemma elem_of_class_added (cl : gset string) (c d : string) :
  c ∈ cl ∪ {[d]} <-> c ∈ cl \/ c = d.
Proof. now rewrite elem_of_union, elem_of_singleton. Qed.

Lemma elem_of_class_removed (cl : gset string) (c d : string) :
  c ∈ cl ∖ {[d]} <-> c ∈ cl /\ c <> d.
Proof. now rewrite elem_of_difference, elem_of_singleton. Qed.

Lemma applyTheme_dark (themeSwitch : ref) (w : World) :
  applyTheme themeSwitch "dark" w
  = match themeSwitch with
    | Some id =>
        (Normal tt,
         set_localStorage <["theme" := "dark"]>
           (set_document
              (fun d => alter (with_attribute "title" "Cambiar a tema claro") id
                          (alter (with_attribute "aria-checked" "true") id d))
              (set_bodyClassList (fun cl => cl ∪ {["dark-mode"]}) w)))
    | None =>
        (Throw TypeError, set_bodyClassList (fun cl => cl ∪ {["dark-mode"]}) w)
    end.
Proof. destruct themeSwitch; reflexivity. Qed.

Lemma applyTheme_other (themeSwitch : ref) (theme : string) (w : World) :
  theme <> "dark" ->
  applyTheme themeSwitch theme w
  = match themeSwitch with
    | Some id =>
        (Normal tt,
         set_localStorage <["theme" := theme]>
           (set_document
              (fun d => alter (with_attribute "title" "Cambiar a tema oscuro") id
                          (alter (with_attribute "aria-checked" "false") id d))
              (set_bodyClassList (fun cl => cl ∖ {["dark-mode"]}) w)))
    | None =>
        (Throw TypeError, set_bodyClassList (fun cl => cl ∖ {["dark-mode"]}) w)
    end.
Proof.
  intros Hne. unfold applyTheme.
  destruct (String.eqb_spec theme "dark") as [-> | _]; [contradiction |].
  destruct themeSwitch; reflexivity.
Qed.

Lemma initTheme_cases (themeSwitch : ref) (w : World) :
  (forall s, localStorage w !! "theme" = Some s -> s <> "" ->
     initTheme themeSwitch w = applyTheme themeSwitch s w)
  /\ (localStorage w !! "theme" = None \/ localStorage w !! "theme" = Some "" ->
      prefersDark w = true ->
      initTheme themeSwitch w = applyTheme themeSwitch "dark" w)
  /\ (localStorage w !! "theme" = None \/ localStorage w !! "theme" = Some "" ->
      prefersDark w = false ->
      initTheme themeSwitch w = applyTheme themeSwitch "light" w).
Proof.
  unfold initTheme, localStorage_getItem, bind, gets, ret.
  split; [| split].
  - intros s Hs Hne. rewrite Hs. cbn [truthy toStr].
    destruct (String.eqb_spec s ""); [contradiction | reflexivity].
  - intros [Hs | Hs] Hp; rewrite Hs, Hp; reflexivity.
  - intros [Hs | Hs] Hp; rewrite Hs, Hp; reflexivity.
Qed.

(** X20.  The initial resolution: a stored theme that is not the empty string is
    applied, whatever the system prefers; with nothing stored, or the
    empty string, dark is applied if the system prefers dark and light
    otherwise. *)
Theorem initTheme_precedence (themeSwitch : ref) (w : World) :
  (forall s, localStorage w !! "theme" = Some s -> s <> "" ->
     initTheme themeSwitch w = applyTheme themeSwitch s w)
  /\ (localStorage w !! "theme" = None \/ localStorage w !! "theme" = Some "" ->
      prefersDark w = true ->
      initTheme themeSwitch w = applyTheme themeSwitch "dark" w)
  /\ (localStorage w !! "theme" = None \/ localStorage w !! "theme" = Some "" ->
      prefersDark w = false ->
      initTheme themeSwitch w = applyTheme themeSwitch "light" w).
Proof. exact (initTheme_cases themeSwitch w). Qed.

Lemma applyTheme_leaves (themeSwitch : ref) (theme : string) (w : World) :
  let w' := exec (applyTheme themeSwitch theme) w in
  ("dark-mode" ∈ bodyClassList w' <-> theme = "dark")
  /\ (forall c, c <> "dark-mode" -> c ∈ bodyClassList w' <-> c ∈ bodyClassList w)
  /\ (forall id el,
        themeSwitch = Some id -> document w !! id = Some el ->
        eval (applyTheme themeSwitch theme) w = Normal tt
        /\ localStorage w' = <["theme" := theme]> (localStorage w)
        /\ exists el',
             document w' !! id = Some el'
             /\ attributes el' !! "aria-checked"
                = Some (if String.eqb theme "dark" then "true" else "false")
             /\ attributes el' !! "title"
                = Some (if String.eqb theme "dark"
                        then "Cambiar a tema claro"
                        else "Cambiar a tema oscuro")
             /\ innerHTML el' = innerHTML el)
  /\ (themeSwitch = None ->
      eval (applyTheme themeSwitch theme) w = Throw TypeError
      /\ localStorage w' = localStorage w).
Proof.
  cbv zeta. unfold exec, eval.
  destruct (String.eqb_spec theme "dark") as [-> | Hne].
  - rewrite applyTheme_dark.
    split; [destruct themeSwitch; cbn; rewrite elem_of_class_added; tauto |].
    split; [intros c Hc; destruct themeSwitch; cbn;
            rewrite elem_of_class_added; tauto |].
    split.
    + intros id el -> Hel. cbn.
      split; [reflexivity |]. split; [reflexivity |].
      rewrite lookup_alter_eq, lookup_alter_eq, Hel. cbn.
      eexists. split; [reflexivity |]. cbn.
      split; [rewrite lookup_insert_ne by done; now rewrite lookup_insert_eq |].
      split; [now rewrite lookup_insert_eq | reflexivity].
    + intros ->. split; reflexivity.
  - rewrite (applyTheme_other _ _ _ Hne).
    split; [destruct themeSwitch; cbn; rewrite elem_of_class_removed; tauto |].
    split; [intros c Hc; destruct themeSwitch; cbn;
            rewrite elem_of_class_removed; tauto |].
    split.
    + intros id el -> Hel. cbn.
      split; [reflexivity |]. split; [reflexivity |].
      rewrite lookup_alter_eq, lookup_alter_eq, Hel. cbn.
      eexists. split; [reflexivity |]. cbn.
      split; [rewrite lookup_insert_ne by done; now rewrite lookup_insert_eq |].
      split; [now rewrite lookup_insert_eq | reflexivity].
    + intros ->. split; reflexivity.
Qed.

(** X21.  What applying a theme leaves behind.  The body has the class
    [dark-mode] exactly when the theme is the string ["dark"], and its
    other classes are untouched.  With the switch on the page, the call
    returns, the theme is stored under the key [theme] and no other key
    changes, and [aria-checked] of the switch says whether the theme is
    dark.  Without the switch a TypeError is thrown before anything is
    stored. *)
Theorem applyTheme_effects (themeSwitch : ref) (theme : string) (w : World) :
  let w' := exec (applyTheme themeSwitch theme) w in
  ("dark-mode" ∈ bodyClassList w' <-> theme = "dark")
  /\ (forall c, c <> "dark-mode" -> c ∈ bodyClassList w' <-> c ∈ bodyClassList w)
  /\ (forall id el,
        themeSwitch = Some id -> document w !! id = Some el ->
        eval (applyTheme themeSwitch theme) w = Normal tt
        /\ localStorage w' = <["theme" := theme]> (localStorage w)
        /\ exists el',
             document w' !! id = Some el'
             /\ attributes el' !! "aria-checked"
                = Some (if String.eqb theme "dark" then "true" else "false")
             /\ attributes el' !! "title"
                = Some (if String.eqb theme "dark"
                        then "Cambiar a tema claro"
                        else "Cambiar a tema oscuro")
             /\ innerHTML el' = innerHTML el)
  /\ (themeSwitch = None ->
      eval (applyTheme themeSwitch theme) w = Throw TypeError
      /\ localStorage w' = localStorage w).
Proof. exact (applyTheme_leaves themeSwitch theme w). Qed.

Lemma initTheme_precedence_witness :
  initTheme (Some "theme-switch")
    (set_localStorage <["theme" := "dark"]> hostPage)
  = applyTheme (Some "theme-switch") "dark"
      (set_localStorage <["theme" := "dark"]> hostPage)
  /\ initTheme (Some "theme-switch") hostPage
     = applyTheme (Some "theme-switch") "light" hostPage.
Proof.
  split.
  - apply (proj1 (initTheme_precedence (Some "theme-switch")
                    (set_localStorage <["theme" := "dark"]> hostPage)));
      [reflexivity | discriminate].
  - apply (proj2 (proj2 (initTheme_precedence (Some "theme-switch") hostPage)));
      [left; reflexivity | reflexivity].
Defined.

Lemma applyTheme_effects_witness :
  eval (applyTheme (Some "theme-switch") "dark") hostPage = Normal tt
  /\ localStorage (exec (applyTheme (Some "theme-switch") "dark") hostPage)
     = <["theme" := "dark"]> (localStorage hostPage)
  /\ eval (applyTheme None "dark") hostPage = Throw TypeError.
Proof.
  pose proof (applyTheme_effects (Some "theme-switch") "dark" hostPage) as H.
  pose proof (applyTheme_effects None "dark" hostPage) as H0.
  cbv zeta in H, H0.
  destruct H as [_ [_ [H _]]]. destruct H0 as [_ [_ [_ H0]]].
  destruct (H "theme-switch" (container true) eq_refl eq_refl) as [H1 [H2 _]].
  destruct (H0 eq_refl) as [H3 _].
  split; [exact H1 | split; [exact H2 | exact H3]].
Defined.

Lemma alter_with_attribute_twice (k1 v1 k2 v2 id : string)
    (d : gmap string element) :
  alter (with_attribute k2 v2) id
    (alter (with_attribute k1 v1) id
       (alter (with_attribute k2 v2) id
          (alter (with_attribute k1 v1) id d)))
  = alter (with_attribute k2 v2) id (alter (with_attribute k1 v1) id d).
Proof.
  apply map_eq. intros j. destruct (decide (id = j)) as [<- | Hne].
  - rewrite !lookup_alter_eq. destruct (d !! id) as [[h v a b] |]; cbn; [| reflexivity].
    unfold with_attribute; cbn. do 2 f_equal.
    apply map_eq. intros k.
    destruct (decide (k2 = k)) as [<- | Hk2]; [now rewrite !lookup_insert_eq |].
    rewrite !(lookup_insert_ne _ k2) by done.
    destruct (decide (k1 = k)) as [<- | Hk1]; [now rewrite !lookup_insert_eq |].
    rewrite !(lookup_insert_ne _ k1) by done.
    rewrite !(lookup_insert_ne _ k2) by done.
    now rewrite !(lookup_insert_ne _ k1) by done.
  - now rewrite !lookup_alter_ne.
Qed.

(** X22.  Applying a theme twice is applying it once. *)
Theorem applyTheme_idempotent (themeSwitch : ref) (theme : string) (w : World) :
  exec (applyTheme themeSwitch theme)
    (exec (applyTheme themeSwitch theme) w)
  = exec (applyTheme themeSwitch theme) w.
Proof.
  unfold exec.
  destruct (String.eqb_spec theme "dark") as [-> | Hne].
  - rewrite !applyTheme_dark. destruct themeSwitch as [id |]; cbn [snd].
    + unfold set_localStorage, set_document, set_bodyClassList. cbn.
      f_equal.
      * apply insert_insert_eq.
      * apply alter_with_attribute_twice.
      * apply set_eq. intros c. rewrite !elem_of_class_added. tauto.
    + unfold set_bodyClassList. cbn. f_equal.
      apply set_eq. intros c. rewrite !elem_of_class_added. tauto.
  - rewrite !(applyTheme_other _ _ _ Hne). destruct themeSwitch as [id |]; cbn [snd].
    + unfold set_localStorage, set_document, set_bodyClassList. cbn.
      f_equal.
      * apply insert_insert_eq.
      * apply alter_with_attribute_twice.
      * apply set_eq. intros c. rewrite !elem_of_class_removed. tauto.
    + unfold set_bodyClassList. cbn. f_equal.
      apply set_eq. intros c. rewrite !elem_of_class_removed. tauto.
Qed.

Lemma onThemeSwitchClick_run (themeSwitch : ref) (w : World) :
  onThemeSwitchClick themeSwitch w
  = applyTheme themeSwitch
      (if bool_decide ("dark-mode" ∈ bodyClassList w) then "light" else "dark") w.
Proof.
  unfold onThemeSwitchClick, classList_contains, bind, gets, ret.
  destruct (bool_decide ("dark-mode" ∈ bodyClassList w)); reflexivity.
Qed.

(** X23.  A click on the switch flips the theme: the body gets the class
    [dark-mode] exactly if it did not have it, and with the switch on the
    page the new theme, ["dark"] or ["light"], is what is stored.  A
    second click gives the body its classes back. *)
Theorem toggle_flips (themeSwitch : ref) (w : World) :
  let w' := exec (onThemeSwitchClick themeSwitch) w in
  ("dark-mode" ∈ bodyClassList w' <-> "dark-mode" ∉ bodyClassList w)
  /\ (forall id, themeSwitch = Some id ->
        eval (onThemeSwitchClick themeSwitch) w = Normal tt
        /\ localStorage w'
           = <["theme" := if bool_decide ("dark-mode" ∈ bodyClassList w)
                          then "light" else "dark"]> (localStorage w))
  /\ bodyClassList (exec (onThemeSwitchClick themeSwitch) w') = bodyClassList w.
Proof.
  cbv zeta. unfold exec, eval. rewrite !onThemeSwitchClick_run.
  destruct (bool_decide_reflect ("dark-mode" ∈ bodyClassList w)) as [Hin | Hout].
  - assert (Hl : "light" <> "dark") by discriminate.
    rewrite (applyTheme_other _ _ _ Hl).
    assert (Hgone : "dark-mode" ∉
              bodyClassList (set_bodyClassList (fun cl => cl ∖ {["dark-mode"]}) w)).
    { cbn. rewrite elem_of_class_removed. tauto. }
    split; [destruct themeSwitch; cbn; rewrite elem_of_class_removed; tauto |].
    split; [intros id ->; split; reflexivity |].
    destruct themeSwitch as [id |]; cbn [snd];
      (rewrite bool_decide_eq_false_2 by exact Hgone);
      rewrite applyTheme_dark; cbn;
      apply set_eq; intros c;
      rewrite elem_of_class_added, elem_of_class_removed;
      (destruct (decide (c = "dark-mode")) as [-> | ?]; tauto).
  - rewrite applyTheme_dark.
    assert (Hthere : "dark-mode" ∈
              bodyClassList (set_bodyClassList (fun cl => cl ∪ {["dark-mode"]}) w)).
    { cbn. rewrite elem_of_class_added. tauto. }
    assert (Hl : "light" <> "dark") by discriminate.
    split; [destruct themeSwitch; cbn; rewrite elem_of_class_added; tauto |].
    split; [intros id ->; split; reflexivity |].
    destruct themeSwitch as [id |]; cbn [snd];
      (rewrite bool_decide_eq_true_2 by exact Hthere);
      rewrite (applyTheme_other _ _ _ Hl); cbn;
      apply set_eq; intros c;
      rewrite elem_of_class_removed, elem_of_class_added;
      (destruct (decide (c = "dark-mode")) as [-> | ?]; tauto).
Qed.

Lemma toggle_flips_witness :
  eval (onThemeSwitchClick (Some "theme-switch")) hostPage = Normal tt
  /\ localStorage (exec (onThemeSwitchClick (Some "theme-switch")) hostPage)
       !! "theme"
     = Some "dark".
Proof.
  pose proof (toggle_flips (Some "theme-switch") hostPage) as H.
  cbv zeta in H. destruct H as [_ [H _]].
  destruct (H "theme-switch" eq_refl) as [H1 H2].
  split; [exact H1 |]. rewrite H2. reflexivity.
Defined.

Lemma theme_op_step (id : string) (op : theme_op) (w : World) :
  (op = InitialResolution -> stored_theme_fresh_or_valid w) ->
  let w' := exec (run_theme_op (Some id) op) w in
  stored_theme_valid w'
  /\ (localStorage w' !! "theme" = Some "dark"
      <-> "dark-mode" ∈ bodyClassList w').
Proof.
  intros Hinit. cbv zeta.
  assert (Happly : forall theme w0,
    theme = "light" \/ theme = "dark" ->
    stored_theme_valid (exec (applyTheme (Some id) theme) w0)
    /\ (localStorage (exec (applyTheme (Some id) theme) w0) !! "theme"
          = Some "dark"
        <-> "dark-mode" ∈ bodyClassList (exec (applyTheme (Some id) theme) w0))).
  { intros theme w0 Ht.
    destruct (applyTheme_leaves (Some id) theme w0) as [Hclass _].
    cbv zeta in Hclass. rewrite Hclass.
    unfold stored_theme_valid, exec.
    destruct Ht as [-> | ->].
    - rewrite (applyTheme_other (Some id) "light" w0) by discriminate.
      cbn. rewrite lookup_insert_eq. split; [now left |].
      split; intros H; discriminate H.
    - rewrite applyTheme_dark. cbn. rewrite lookup_insert_eq.
      split; [now right | tauto]. }
  destruct op; cbn [run_theme_op].
  - destruct (initTheme_cases (Some id) w) as [Hstored [Hdark Hlight]].
    destruct (Hinit eq_refl) as [Hnone | [Hempty | [Hl | Hd]]].
    + destruct (prefersDark w) eqn:Hp; unfold exec.
      * rewrite (Hdark (or_introl Hnone) eq_refl). apply Happly. now right.
      * rewrite (Hlight (or_introl Hnone) eq_refl). apply Happly. now left.
    + destruct (prefersDark w) eqn:Hp; unfold exec.
      * rewrite (Hdark (or_intror Hempty) eq_refl). apply Happly. now right.
      * rewrite (Hlight (or_intror Hempty) eq_refl). apply Happly. now left.
    + unfold exec. rewrite (Hstored "light" Hl) by discriminate.
      apply Happly. now left.
    + unfold exec. rewrite (Hstored "dark" Hd) by discriminate.
      apply Happly. now right.
  - unfold exec. rewrite onThemeSwitchClick_run. apply Happly.
    destruct (bool_decide ("dark-mode" ∈ bodyClassList w)); [now left | now right].
Qed.

(** X24.  The invariant of the theme.  On a page whose switch was found, after
    any number (not zero) of initial resolutions and clicks, starting with
    nothing, the empty string, ["light"] or ["dark"] in the storage, the
    stored theme is ["light"] or ["dark"], and it is ["dark"] exactly when
    the body has the class [dark-mode]. *)
Theorem theme_store_invariant (id : string) (ops : list theme_op) (w : World) :
  ops <> [] ->
  stored_theme_fresh_or_valid w ->
  let w' := run_theme_ops (Some id) ops w in
  stored_theme_valid w'
  /\ (localStorage w' !! "theme" = Some "dark"
      <-> "dark-mode" ∈ bodyClassList w').
Proof.
  revert w. induction ops as [| op ops IH]; intros w Hne Hw; [contradiction |].
  cbn [run_theme_ops].
  pose proof (theme_op_step id op w (fun _ => Hw)) as Hstep. cbv zeta in Hstep.
  destruct ops as [| op' ops'].
  - exact Hstep.
  - apply IH; [discriminate |]. right. right. exact (proj1 Hstep).
Qed.

Lemma theme_store_invariant_witness :
  stored_theme_valid
    (run_theme_ops (Some "theme-switch")
       [InitialResolution; ToggleClick; ToggleClick] hostPage).
Proof.
  apply (theme_store_invariant "theme-switch"
           [InitialResolution; ToggleClick; ToggleClick] hostPage).
  - discriminate.
  - left. reflexivity.
Defined.

(** ** Structured data *)

(** X25.  [generateJsonLd] changes nothing.  On a section it returns the record
    whose [url] is the address of the page and whose [sameAs] lists the
    addresses of the social profiles in their order; on anything else it
    throws a TypeError.  For a section, two calls give the same record
    exactly when the page has the same address in both. *)
Theorem generateJsonLd_result (personalData : field Personal.t) (w : World) :
  exec (generateJsonLd personalData) w = w
  /\ (field_truthy personalData = false ->
      eval (generateJsonLd personalData) w = Throw TypeError)
  /\ (forall p, personalData = Present p ->
        (exists jsonLd,
           eval (generateJsonLd personalData) w = Normal jsonLd
           /\ ld_name jsonLd = Personal.name p
           /\ ld_jobTitle jsonLd = Personal.title p
           /\ ld_email jsonLd = Personal.email p
           /\ ld_image jsonLd = Personal.photo p
           /\ ld_url jsonLd = location_href w
           /\ ld_sameAs jsonLd = map Social.url (Personal.social p))
        /\ (forall w2,
              eval (generateJsonLd personalData) w2
              = eval (generateJsonLd personalData) w
              <-> location_href w2 = location_href w)).
Proof.
  split; [| split].
  - destruct personalData as [| [] | p]; reflexivity.
  - destruct personalData as [| [] | p]; (discriminate || reflexivity).
  - intros p ->. unfold eval. split.
    + rewrite generateJsonLd_section. eexists. repeat split.
    + intros w2. rewrite !generateJsonLd_section. cbn [fst]. split.
      * intros H. now injection H.
      * intros ->. reflexivity.
Qed.

Lemma generateJsonLd_result_witness :
  eval (generateJsonLd (Falsy JFalse)) hostPage = Throw TypeError
  /\ exists jsonLd,
       eval (generateJsonLd (Present owner)) hostPage = Normal jsonLd
       /\ ld_url jsonLd = "https://example.org/".
Proof.
  split.
  - apply (proj1 (proj2 (generateJsonLd_result (Falsy JFalse) hostPage))).
    reflexivity.
  - destruct (proj2 (proj2 (generateJsonLd_result (Present owner) hostPage))
                owner eq_refl) as [[jsonLd [H1 [_ [_ [_ [_ [H2 _]]]]]]] _].
    exists jsonLd. split; [exact H1 | exact H2].
Defined.

(** ** The whole page *)


Lemma applyTheme_run (themeSwitch : ref) (theme : string) (w : World) :
  let w1 :=
    set_bodyClassList
      (fun cl => if String.eqb theme "dark"
                 then cl ∪ {["dark-mode"]} else cl ∖ {["dark-mode"]}) w in
  applyTheme themeSwitch theme w
  = match themeSwitch with
    | Some id =>
        (Normal tt,
         set_localStorage <["theme" := theme]>
           (set_document
              (fun d =>
                 alter (with_attribute "title"
                          (if String.eqb theme "dark"
                           then "Cambiar a tema claro"
                           else "Cambiar a tema oscuro")) id
                   (alter (with_attribute "aria-checked"
                             (if String.eqb theme "dark"
                              then "true" else "false")) id d))
              w1))
    | None => (Throw TypeError, w1)
    end.
Proof.
  cbv zeta. unfold applyTheme.
  destruct (String.eqb theme "dark"); destruct themeSwitch; reflexivity.
Qed.

Lemma initTheme_applies (themeSwitch : ref) (w : World) :
  exists theme,
    initTheme themeSwitch w = applyTheme themeSwitch theme w
    /\ (stored_theme_fresh_or_valid w -> theme = "light" \/ theme = "dark").
Proof.
  destruct (initTheme_cases themeSwitch w) as [Hstored [Hdark Hlight]].
  destruct (localStorage w !! "theme") as [s |] eqn:Hs.
  - destruct (String.eqb_spec s "") as [-> | Hne].
    + destruct (prefersDark w) eqn:Hp.
      * exists "dark". split; [apply Hdark; auto | auto].
      * exists "light". split; [apply Hlight; auto | auto].
    + exists s. split; [now apply Hstored |].
      unfold stored_theme_fresh_or_valid, stored_theme_valid. rewrite Hs.
      intros [H | [H | [H | H]]]; try discriminate;
        injection H as ->; [contradiction | auto | auto].
  - destruct (prefersDark w) eqn:Hp.
    + exists "dark". split; [apply Hdark; auto | auto].
    + exists "light". split; [apply Hlight; auto | auto].
Qed.

Section WholePage.

Variable toLocaleDateString : string -> string.

Lemma fatal_load_skips_rendering :
  (forall response w,
     eval (loadData response) w = Normal None ->
     loadAndRender toLocaleDateString response w
     = (Normal tt, exec (loadData response) w))
  /\ (forall ok statusText doc w,
        field_truthy (personal doc) = false
        \/ field_truthy (skills doc) = false
        \/ field_truthy (experience doc) = false ->
        eval (loadData (Response ok statusText (Some (JsonObject doc)))) w
        = Normal None
        /\ bodyInnerHTML
             (exec (loadData (Response ok statusText (Some (JsonObject doc)))) w)
           = Some errorMarkup).
Proof.
  split.
  - intros response w Hnull. unfold loadAndRender, bind, eval, exec in *.
    destruct (loadData response w) as [[data | e] w']; cbn in *;
      [| discriminate].
    injection Hnull as ->. reflexivity.
  - intros ok statusText doc w Hlack.
    destruct (loadData_cases (Response ok statusText (Some (JsonObject doc))) w)
      as [[data Hdata] | [e Hfatal]].
    + exfalso.
      assert (Hev : eval (loadData (Response ok statusText (Some (JsonObject doc)))) w
                    = Normal (Some data)) by (unfold eval; now rewrite Hdata).
      apply loadData_success_iff in Hev.
      destruct Hev as [st [doc' [Heq [_ [Hp [Hs He]]]]]].
      injection Heq as _ _ <-.
      destruct Hlack as [H | [H | H]]; congruence.
    + cbv zeta in Hfatal. destruct Hfatal as [H1 [_ [H3 _]]]. split; assumption.
Qed.

(** X26.  When [loadData] returns [null], no renderer runs: the page is left as
    [loadData] left it.  This is what happens to every document in which
    [personal], [skills] or [experience] is missing or falsy, whatever
    the status of the response. *)
Theorem fatal_load_renders_nothing :
  (forall response w,
     eval (loadData response) w = Normal None ->
     loadAndRender toLocaleDateString response w
     = (Normal tt, exec (loadData response) w))
  /\ (forall ok statusText doc w,
        field_truthy (personal doc) = false
        \/ field_truthy (skills doc) = false
        \/ field_truthy (experience doc) = false ->
        eval (loadData (Response ok statusText (Some (JsonObject doc)))) w
        = Normal None
        /\ bodyInnerHTML
             (exec (loadData (Response ok statusText (Some (JsonObject doc)))) w)
           = Some errorMarkup).
Proof. exact (fatal_load_skips_rendering). Qed.






(** X29.  After a fatal load the switch, which was in the body, is gone with the
    body: the listener of the page throws a TypeError when it applies the
    theme, nothing is stored and no listener is registered.  The page
    shows the error paragraph. *)
Theorem fatal_load_loses_the_switch (response : fetch_outcome) (w : World) :
  eval (loadData response) w = Normal None ->
  (forall el, document w !! "theme-switch" = Some el -> inBody el = true) ->
  let w' := exec (onDOMContentLoaded toLocaleDateString response) w in
  eval (onDOMContentLoaded toLocaleDateString response) w = Throw TypeError
  /\ bodyInnerHTML w' = Some errorMarkup
  /\ localStorage w' = localStorage w
  /\ listeners w' = listeners w.
Proof.
  intros Hnull Hswitch. cbv zeta.
  destruct fatal_load_skips_rendering as [Hnothing _].
  pose proof (Hnothing response w Hnull) as HLR.
  destruct (loadData_cases response w) as [[data Hdata] | [e Hfatal]].
  { unfold eval in Hnull. rewrite Hdata in Hnull. discriminate. }
  cbv zeta in Hfatal.
  destruct Hfatal as [_ [_ [Hbody [Hdoc [Hst [_ [Hls _]]]]]]].
  set (wf := exec (loadData response) w) in *.
  assert (Hgone : document wf !! "theme-switch" = None).
  { destruct (document wf !! "theme-switch") as [el |] eqn:Hel; [| reflexivity].
    apply Hdoc in Hel. destruct Hel as [Hel Hin].
    rewrite (Hswitch el Hel) in Hin. discriminate. }
  destruct (initTheme_applies None wf) as [theme [Hinit _]].
  assert (Hpage : onDOMContentLoaded toLocaleDateString response w
                  = applyTheme None theme wf).
  { unfold onDOMContentLoaded.
    rewrite (bind_normal _ _ _ _ _ HLR).
    rewrite (bind_normal _ _ _ _ _ (getElementById_absent _ _ Hgone)).
    erewrite bind_throw; [| rewrite Hinit; apply (applyTheme_run None)].
    now rewrite (applyTheme_run None). }
  unfold exec, eval. rewrite Hpage, (applyTheme_run None). cbv zeta.
  cbn [fst snd bodyInnerHTML localStorage listeners set_bodyClassList].
  repeat split; assumption.
Qed.


End WholePage.

Lemma fatal_load_renders_nothing_witness :
  loadAndRender esES_UTC
    (Response true "OK" (Some (JsonObject documentWithoutSkills))) hostPage
  = (Normal tt,
     exec (loadData (Response true "OK" (Some (JsonObject documentWithoutSkills))))
       hostPage)
  /\ bodyInnerHTML
       (exec (loadData (Response true "OK" (Some (JsonObject documentWithoutSkills))))
          hostPage)
     = Some errorMarkup.
Proof.
  destruct (fatal_load_renders_nothing esES_UTC) as [Hnothing Hlack].
  destruct (Hlack true "OK" documentWithoutSkills hostPage
              (or_intror (or_introl eq_refl))) as [Hnull Hbody].
  split; [exact (Hnothing _ hostPage Hnull) | exact Hbody].
Defined.



Lemma fatal_load_loses_the_switch_witness :
  eval (onDOMContentLoaded esES_UTC FetchRejected) hostPage = Throw TypeError
  /\ localStorage (exec (onDOMContentLoaded esES_UTC FetchRejected) hostPage)
     = localStorage hostPage.
Proof.
  assert (Hswitch : forall el,
            document hostPage !! "theme-switch" = Some el -> inBody el = true).
  { intros el Hel. injection Hel as <-. reflexivity. }
  pose proof (fatal_load_loses_the_switch esES_UTC FetchRejected hostPage
                eq_refl Hswitch) as H.
  cbv zeta in H. destruct H as [H1 [_ [H2 _]]].
  split; [exact H1 | exact H2].
Defined.

